(** * fileshare: path validation, directory listing and upload naming

    A shallow embedding of [main.go] (package [main] of yeka/fileshare):
    [validatePath], [upload], [handleList], [handleUpload] and
    [responseError], together with the parts of the Go standard library and
    of the operating system they call.

    Go strings are byte strings and are embedded as [string] (lists of
    8-bit characters).  The file system is a finite map from path names to
    nodes, threaded through a state monad that also records every file-system
    call, so that "performs no file-system access" is a statement about the
    recorded trace. *)

From Stdlib Require Import ZArith Ascii DecimalString Lia.
From stdpp Require Import base option list strings gmap sorting.

Local Open Scope Z_scope.
Local Open Scope stdpp_scope.

(** ** Byte strings *)

Definition slash : ascii := "/"%char.
Definition dot : ascii := "."%char.

Definition len (s : string) : nat := String.length s.

Definition chars (s : string) : list ascii := String.list_ascii_of_string s.

Definition of_chars (l : list ascii) : string := String.string_of_list_ascii l.

(** [s[:n]], a Go slice expression: it panics ([None]) when [n] is out of
    range. *)
Definition slice_to (s : string) (n : Z) : option string :=
  if (0 <=? n) && (n <=? Z.of_nat (len s))
  then Some (String.substring 0 (Z.to_nat n) s)
  else None.

(** ** Package [strings] *)

Module Strings.

(** [strings.HasPrefix(s, prefix)]. *)
Fixpoint HasPrefix (s prefix : string) : bool :=
  match prefix, s with
  | EmptyString, _ => true
  | String _ _, EmptyString => false
  | String c prefix', String d s' => Ascii.eqb c d && HasPrefix s' prefix'
  end.

(** [strings.HasSuffix(s, suffix)]:
    [len(s) >= len(suffix) && s[len(s)-len(suffix):] == suffix]. *)
Definition HasSuffix (s suffix : string) : bool :=
  (len suffix <=? len s)%nat
  && String.eqb (String.substring (len s - len suffix) (len suffix) s) suffix.

(** [strings.Split(s, sep)] for a one-byte separator, the only use the
    program makes of it.  The result is never empty: [Split("", "/")] is
    [[""]]. *)
Fixpoint Split (s : string) (sep : ascii) : list string :=
  match s with
  | EmptyString => [EmptyString]
  | String c s' =>
      if Ascii.eqb c sep then EmptyString :: Split s' sep
      else match Split s' sep with
           | x :: xs => String c x :: xs
           | [] => [String c EmptyString]
           end
  end.

(** [strings.Join(elems, sep)]. *)
Fixpoint Join (elems : list string) (sep : string) : string :=
  match elems with
  | [] => EmptyString
  | [x] => x
  | x :: xs => x +:+ sep +:+ Join xs sep
  end.

End Strings.

(** ** Package [strconv] *)

Module Strconv.

(** Go's [int] on the 64-bit platforms the server runs on. *)
Definition wrap64 (z : Z) : Z := (z + 2 ^ 63) mod 2 ^ 64 - 2 ^ 63.

(** [strconv.Itoa(i)]: decimal, with a leading [-] for negative numbers. *)
Definition Itoa (i : Z) : string := NilZero.string_of_int (Z.to_int i).

End Strconv.

(** ** Package [path/filepath] (Unix) *)

Module Filepath.

Definition IsPathSeparator (c : ascii) : bool := Ascii.eqb c slash.

Definition rooted (path : string) : bool :=
  match path with
  | String c _ => IsPathSeparator c
  | EmptyString => false
  end.

(** The state of [Clean]'s loop, element by element: [out] holds the
    elements written to the buffer so far, last one first, and [dotdot]
    counts the leading [..] elements the buffer starts with, below which
    a later [..] cannot backtrack (the source keeps the byte index where
    they end). *)
Record cleaner := { out : list string; dotdot : nat }.

Definition clean_step (is_rooted : bool) (st : cleaner) (elem : string) : cleaner :=
  if String.eqb elem "" then st                      (* empty path element *)
  else if String.eqb elem "." then st                (* . element *)
  else if String.eqb elem ".." then                  (* .. element *)
    if (dotdot st <? length (out st))%nat then       (* can backtrack *)
      {| out := tail (out st); dotdot := dotdot st |}
    else if negb is_rooted then                      (* append .. element *)
      {| out := ".." :: out st; dotdot := S (dotdot st) |}
    else st
  else {| out := elem :: out st; dotdot := dotdot st |}.  (* real path element *)

Definition clean_run (is_rooted : bool) (elems : list string) : cleaner :=
  fold_left (clean_step is_rooted) elems {| out := []; dotdot := 0 |}.

(** The buffer as a string: a leading separator for a rooted path, the
    elements separated by [/], and [.] for the empty relative path. *)
Definition clean_render (is_rooted : bool) (st : cleaner) : string :=
  let body := Strings.Join (rev (out st)) "/" in
  if is_rooted then String slash body
  else if String.eqb body "" then "." else body.

(** [filepath.Clean(path)]. *)
Definition Clean (path : string) : string :=
  if String.eqb path "" then "."
  else clean_render (rooted path) (clean_run (rooted path) (Strings.Split path slash)).

(** [filepath.Join(elem...)]: empty elements in front are ignored, the
    rest is joined by the separator and cleaned. *)
Fixpoint Join (elem : list string) : string :=
  match elem with
  | [] => ""
  | e :: rest =>
      if String.eqb e "" then Join rest
      else Clean (Strings.Join elem "/")
  end.

(** [filepath.Ext(path)]: scanning backwards from the end, the suffix that
    starts at the first dot met before any separator. *)
Fixpoint ext_scan (rpath : list ascii) (suffix : string) : string :=
  match rpath with
  | [] => ""
  | c :: rpath' =>
      if IsPathSeparator c then ""
      else if Ascii.eqb c dot then String c suffix
      else ext_scan rpath' (String c suffix)
  end.

Definition Ext (path : string) : string := ext_scan (rev (chars path)) "".

(** [filepath.Base(path)]. *)
Fixpoint strip_separators (rpath : list ascii) : list ascii :=
  match rpath with
  | c :: rpath' => if IsPathSeparator c then strip_separators rpath' else rpath
  | [] => []
  end.

Fixpoint last_element (rpath : list ascii) (suffix : string) : string :=
  match rpath with
  | [] => suffix
  | c :: rpath' =>
      if IsPathSeparator c then suffix else last_element rpath' (String c suffix)
  end.

Definition Base (path : string) : string :=
  if String.eqb path "" then "."
  else
    let b := last_element (strip_separators (rev (chars path))) "" in
    if String.eqb b "" then "/" else b.

End Filepath.

(** ** Errors *)

(** The [syscall.Errno] values the model distinguishes. *)
Inductive errno := ENOENT | ENOTDIR | EISDIR | EACCES | ENAMETOOLONG | EIO.

Definition errno_string (e : errno) : string :=
  match e with
  | ENOENT => "no such file or directory"
  | ENOTDIR => "not a directory"
  | EISDIR => "is a directory"
  | EACCES => "permission denied"
  | ENAMETOOLONG => "file name too long"
  | EIO => "input/output error"
  end.

(** Go [error] values: [errors.New(msg)], a bare [syscall.Errno], and
    [*os.PathError{Op, Path, Err}]. *)
Inductive error :=
| ErrorString (msg : string)
| Errno (e : errno)
| PathError (op path : string) (e : errno).

(** [err.Error()]. *)
Definition Error (err : error) : string :=
  match err with
  | ErrorString msg => msg
  | Errno e => errno_string e
  | PathError op path e => op +:+ " " +:+ path +:+ ": " +:+ errno_string e
  end.

(** [errors.Is(err, os.ErrNotExist)]. *)
Definition is_ErrNotExist (err : error) : bool :=
  match err with
  | Errno ENOENT | PathError _ _ ENOENT => true
  | _ => false
  end.

(** [errors.As(err, &pe)] for [pe *os.PathError], followed by [pe.Err]. *)
Definition as_PathError (err : error) : option errno :=
  match err with
  | PathError _ _ e => Some e
  | _ => None
  end.

(** [err != nil]. *)
Definition not_nil (err : option error) : bool :=
  match err with Some _ => true | None => false end.

(** A Go call that returns [(value, error)]. *)
Inductive result (A : Type) := Ok (a : A) | Err (err : error).
Arguments Ok {A} a.
Arguments Err {A} err.

(** ** The operating system *)

Inductive node := File (data : list Byte.byte) | Dir.

Definition is_dir (n : node) : bool :=
  match n with Dir => true | File _ => false end.

(** Refusals of the operating system other than "no such file": permission
    denied, name too long, I/O error.  They are part of the environment, per
    system call and path. *)
Inductive fault := NoAccess | NameTooLong | IOFailure.

Definition fault_errno (f : fault) : errno :=
  match f with
  | NoAccess => EACCES
  | NameTooLong => ENAMETOOLONG
  | IOFailure => EIO
  end.

Inductive syscall := SysStat | SysOpenDir | SysCreate.

Record FileInfo := { fi_IsDir : bool }.

Record DirEntry := { Name : string; IsDir : bool }.

(** One entry per call the program makes on the file system, with what the
    call returned. *)
Inductive fs_event :=
| EvStat (path : string) (r : result FileInfo)
| EvReadDir (path : string) (r : result (list DirEntry))
| EvCreate (path : string) (r : result string)
| EvWrite (path : string) (data : list Byte.byte)
| EvRemove (path : string)
| EvServeFile (path : string).

(** The world: the files and directories by path name, the faults of the
    environment, and the trace of file-system calls made so far (latest
    first).  A path names at most one node: there are no links, and the
    program presents every path in cleaned form. *)
Record World := {
  nodes : gmap string node;
  faults : syscall → string → option fault;
  trace : list fs_event
}.

(** A world without faults and with an empty trace, from a list of paths
    and nodes. *)
Definition world_of (l : list (string * node)) : World :=
  {| nodes := list_to_map l; faults := λ _ _, None; trace := [] |}.

Definition M (A : Type) : Type := World → A * World.

#[global] Instance M_ret : MRet M := λ A a w, (a, w).
#[global] Instance M_bind : MBind M := λ A B f m w, let '(a, w') := m w in f a w'.

Definition emit (ev : fs_event) : M unit :=
  λ w, ((), {| nodes := nodes w; faults := faults w; trace := ev :: trace w |}).

Definition get_world : M World := λ w, (w, w).

Definition set_nodes (ns : gmap string node) : M unit :=
  λ w, ((), {| nodes := ns; faults := faults w; trace := trace w |}).

Module Os.

(** What [stat(2)] answers for [name] in world [w]. *)
Definition stat_of (w : World) (name : string) : result FileInfo :=
  match faults w SysStat name with
  | Some f => Err (PathError "stat" name (fault_errno f))
  | None =>
      match nodes w !! name with
      | None => Err (PathError "stat" name ENOENT)
      | Some n => Ok {| fi_IsDir := is_dir n |}
      end
  end.

(** [os.Stat(name)]. *)
Definition Stat (name : string) : M (result FileInfo) :=
  w ← get_world;
  let r := stat_of w name in
  _ ← emit (EvStat name r);
  mret r.

(** The path the kernel resolves [name] to when it is opened as a
    directory: trailing separators are ignored. *)
Definition dir_of (name : string) : string :=
  let d := of_chars (rev (Filepath.strip_separators (rev (chars name)))) in
  if String.eqb d "" then (if String.eqb name "" then "" else "/") else d.

Fixpoint strip_prefix (prefix s : string) : option string :=
  match prefix, s with
  | EmptyString, _ => Some s
  | String c prefix', String d s' =>
      if Ascii.eqb c d then strip_prefix prefix' s' else None
  | String _ _, EmptyString => None
  end.

Definition is_name (s : string) : bool :=
  negb (String.eqb s "") && negb (String.eqb s ".") && negb (String.eqb s "..")
  && forallb (λ c, negb (Filepath.IsPathSeparator c)) (chars s).

(** The name under which the node at path [k] appears in directory [d],
    if it is one of its entries. *)
Definition entry_of (d : string) (kn : string * node) : option DirEntry :=
  let prefix :=
    if String.eqb d "/" then "/" else if String.eqb d "." then "" else d +:+ "/" in
  match strip_prefix prefix (fst kn) with
  | Some name =>
      if is_name name then Some {| Name := name; IsDir := is_dir (snd kn) |} else None
  | None => None
  end.

Definition by_name (a b : DirEntry) : Prop := String.le (Name a) (Name b).

#[global] Instance by_name_dec : RelDecision by_name.
Proof. intros a b. unfold by_name. apply _. Defined.

(** [os.ReadDir(name)]: the entries of the directory, sorted by file
    name. *)
Definition ReadDir (name : string) : M (result (list DirEntry)) :=
  w ← get_world;
  let d := dir_of name in
  let r :=
    match faults w SysOpenDir d with
    | Some f => Err (PathError "open" name (fault_errno f))
    | None =>
        match nodes w !! d with
        | None => Err (PathError "open" name ENOENT)
        | Some (File _) => Err (PathError "readdirent" name ENOTDIR)
        | Some Dir =>
            Ok (merge_sort by_name (omap (entry_of d) (map_to_list (nodes w))))
        end
    end in
  _ ← emit (EvReadDir name r);
  mret r.

(** [os.Create(name)]: the file is created, or truncated if it exists.
    The model does not require the parent directory to be present; a
    refusal for such a reason is a fault of the environment. *)
Definition Create (name : string) : M (result string) :=
  w ← get_world;
  let r :=
    match faults w SysCreate name with
    | Some f => Err (PathError "open" name (fault_errno f))
    | None =>
        match nodes w !! name with
        | Some Dir => Err (PathError "open" name EISDIR)
        | _ => Ok name
        end
    end in
  _ ← emit (EvCreate name r);
  _ ← match r with
      | Ok _ => set_nodes (<[name := File []]> (nodes w))
      | Err _ => mret ()
      end;
  mret r.

(** [f.Write(data)] on the file opened at [name]. *)
Definition Write (name : string) (data : list Byte.byte) : M unit :=
  _ ← emit (EvWrite name data);
  w ← get_world;
  match nodes w !! name with
  | Some (File old) => set_nodes (<[name := File (old ++ data)]> (nodes w))
  | _ => mret ()
  end.

(** [os.Remove(name)]; the program ignores its result. *)
Definition Remove (name : string) : M unit :=
  _ ← emit (EvRemove name);
  w ← get_world;
  set_nodes (delete name (nodes w)).

End Os.

(** ** Multipart requests *)

(** A [*multipart.Part] as the program uses it: [FormName()], [FileName()]
    (which the library has already passed through [filepath.Base] when it is
    not empty), and the body as a reader that delivers [content] and then
    ends, with [io.EOF] ([read_err = None]) or with an error. *)
Record Part := {
  FormName : string;
  FileName : string;
  content : list Byte.byte;
  read_err : option error
}.

(** What [r.MultipartReader()] and the successive [mp.NextPart()] calls
    return: no reader at all, or the parts in order, after which [NextPart]
    returns [io.EOF] ([None]) or another error with a nil part. *)
Inductive Body :=
| NotMultipart (err : error)
| Multipart (parts : list Part) (ending : option error).

Record Request := {
  query_path : string;   (* r.URL.Query().Get("path") *)
  body : Body
}.

(** An [http.ResponseWriter]: the status code once written, the header
    fields set, the bytes written, and the file handed to [http.ServeFile]
    if any. *)
Record ResponseWriter := {
  status : option Z;
  header : list (string * string);
  written : string;
  served : option string
}.

Module Http.

Definition StatusOK : Z := 200.
Definition StatusBadRequest : Z := 400.

Definition fresh : ResponseWriter :=
  {| status := None; header := []; written := ""; served := None |}.

(** [w.WriteHeader(code)]: only the first call counts. *)
Definition WriteHeader (code : Z) (w : ResponseWriter) : ResponseWriter :=
  match status w with
  | Some _ => w
  | None =>
      {| status := Some code; header := header w;
         written := written w; served := served w |}
  end.

(** [w.Write(b)]: writes the header with status 200 first if none was
    written. *)
Definition Write (b : string) (w : ResponseWriter) : ResponseWriter :=
  let w := WriteHeader StatusOK w in
  {| status := status w; header := header w;
     written := written w +:+ b; served := served w |}.

(** [w.Header().Set(key, value)]. *)
Definition Header_Set (key value : string) (w : ResponseWriter) : ResponseWriter :=
  {| status := status w; header := (key, value) :: header w;
     written := written w; served := served w |}.

(** [http.ServeFile(w, r, name)]: the file is handed to the library, which
    opens it and writes the response; the model records which file. *)
Definition ServeFile (name : string) (w : ResponseWriter) : M ResponseWriter :=
  _ ← emit (EvServeFile name);
  mret {| status := status w; header := header w;
          written := written w; served := Some name |}.

(** What the client receives when the handler returns: net/http sends
    status 200 if the handler wrote none. *)
Definition response_status (w : ResponseWriter) : Z := default StatusOK (status w).
Definition response_body (w : ResponseWriter) : string := written w.

End Http.

(** How a call ends: it returns, it panics, or (for the model's bounded
    loop) it is still running when the bound is reached. *)
Inductive outcome (A : Type) := Returns (a : A) | Panics | Diverges.
Arguments Returns {A} a.
Arguments Panics {A}.
Arguments Diverges {A}.

(** ** The program *)

Record Config := {
  DisableDirectoryListing : bool;
  DontRemoveOnError : bool;
  BasePath : string
}.

(** [var config = Config{}]: the source never assigns the fields, so the
    server runs with this value. *)
Definition zero_config : Config :=
  {| DisableDirectoryListing := false; DontRemoveOnError := false; BasePath := "" |}.

(** [responseError(w, statusCode, msg)]. *)
Definition responseError (w : ResponseWriter) (statusCode : Z) (msg : string)
  : ResponseWriter :=
  Http.Write msg (Http.WriteHeader statusCode w).

(** [validatePath(base, p)]. *)
Definition validatePath (base p : string) : M (result string) :=
  let p := Filepath.Clean p in
  let invalid :=
    if negb (String.eqb p ".") && negb (String.eqb p "") then
      find (λ s, Strings.HasPrefix s ".") (Strings.Split p slash)  (* this includes .. *)
    else None in
  match invalid with
  | Some s => mret (Err (ErrorString ("invalid path: " +:+ s)))
  | None =>
      let p := Filepath.Join [base; p] in
      r ← Os.Stat p;
      match r with
      | Err err =>
          let err := match as_PathError err with Some e => Errno e | None => err end in
          mret (Err err)
      | Ok fi => mret (Ok (if fi_IsDir fi then p +:+ "/" else p))
      end
  end.

(** How the "check if file exists" loop of [upload] ends. *)
Inductive loop_exit :=
| Break (file : string)     (* [os.Stat] reported that [file] does not exist *)
| ReturnErr (err : error)   (* [os.Stat] failed otherwise *)
| SlicePanic.               (* [file[:len(file)-len(ext)]] out of range *)

(** The loop from its [n]-th iteration on, [i] and [file] being the
    variables of the source; [None] when it is still running after [fuel]
    iterations. *)
Fixpoint upload_loop (fuel : nat) (ext : string) (i : Z) (file : string)
  : M (option loop_exit) :=
  match fuel with
  | O => mret None
  | S fuel =>
      r ← Os.Stat file;
      match r with
      | Err err =>
          if is_ErrNotExist err then mret (Some (Break file))
          else mret (Some (ReturnErr err))
      | Ok _ =>
          let i := Strconv.wrap64 (i + 1) in
          match slice_to file (Z.of_nat (len file) - Z.of_nat (len ext)) with
          | None => mret (Some SlicePanic)
          | Some stem =>
              upload_loop fuel ext i
                (stem +:+ " (" +:+ Strconv.Itoa i +:+ ")" +:+ ext)
          end
      end
  end.

(** [io.Copy(f, part)]: what the part delivers is written to the file; the
    result is the number of bytes copied and the reader's error, if it did
    not end with [io.EOF].  Writes to the file just created are taken to
    succeed. *)
Definition io_Copy (file : string) (part : Part) : M (Z * option error) :=
  _ ← match content part with
      | [] => mret ()
      | data => Os.Write file data
      end;
  mret (Z.of_nat (length (content part)), read_err part).

Section Program.

Variable config : Config.

(** [mime.FormatMediaType], a library function the model leaves
    uninterpreted. *)
Variable FormatMediaType : string → list (string * string) → string.

(** [upload(path, part)].  Every candidate the loop rejects is a path in
    [nodes], and no candidate is tried twice, so one iteration more than
    there are nodes is enough ([upload_loop_total]). *)
Definition upload (path : string) (part : Part) : M (outcome (option error)) :=
  let fileName := FileName part in
  let ext := Filepath.Ext fileName in
  let file := Filepath.Join [path; fileName] in
  (* check if file exists *)
  w ← get_world;
  l ← upload_loop (S (size (nodes w))) ext 0 file;
  match l with
  | None => mret Diverges
  | Some SlicePanic => mret Panics
  | Some (ReturnErr err) => mret (Returns (Some err))
  | Some (Break file) =>
      f ← Os.Create file;
      match f with
      | Err err => mret (Returns (Some err))
      | Ok f =>
          '(n, err) ← io_Copy f part;
          _ ← (if not_nil err && negb (DontRemoveOnError config)
               then Os.Remove file     (* should be optional *)
               else mret ());
          (* fmt.Println(file, n, err): standard output is not modelled *)
          mret (Returns err)
      end
  end.

(** The loop over the directory entries in [handleList]. *)
Fixpoint list_names (fsys : list DirEntry) (paths : list string) : list string :=
  match fsys with
  | [] => paths
  | f :: fsys =>
      if Strings.HasPrefix (Name f) "." then list_names fsys paths
      else
        let name := Name f in
        let name := if IsDir f then name +:+ "/" else name in
        list_names fsys (paths ++ [name])
  end.

(** [handleList(w, r)]. *)
Definition handleList (w : ResponseWriter) (r : Request) : M ResponseWriter :=
  if DisableDirectoryListing config then
    mret (Http.Write "[]" (Http.WriteHeader Http.StatusOK w))
  else
    v ← validatePath (BasePath config) (query_path r);
    match v with
    | Err err => mret (responseError w Http.StatusBadRequest (Error err))
    | Ok path =>
        if negb (Strings.HasSuffix path "/") then
          (* Download *)
          let cd := FormatMediaType "attachment" [("filename", Filepath.Base path)] in
          let w := Http.Header_Set "Content-Disposition" cd w in
          let w := Http.Header_Set "Content-Type" "application/octet-stream" w in
          Http.ServeFile path w
        else
          d ← Os.ReadDir path;
          match d with
          | Err err => mret (responseError w Http.StatusBadRequest (Error err))
          | Ok fsys =>
              let paths := list_names fsys [] in
              mret (Http.Write ("[" +:+ Strings.Join paths "," +:+ "]")
                      (Http.WriteHeader Http.StatusOK w))
          end
    end.

(** The [for] loop of [handleUpload] over [mp.NextPart()]: it stops at the
    end of the parts, whether [NextPart] then returns [io.EOF] or an error
    with a nil part. *)
Fixpoint scan_parts (path : string) (w : ResponseWriter) (parts : list Part)
  : M (outcome ResponseWriter) :=
  match parts with
  | [] => mret (Returns (responseError w Http.StatusBadRequest "unknown payload"))
  | part :: parts =>
      if String.eqb (FormName part) "myFile" then
        u ← upload path part;
        match u with
        | Returns (Some err) =>
            mret (Returns (responseError w Http.StatusBadRequest
                             ("upload failed: " +:+ Error err)))
        | Returns None => mret (Returns w)
        | Panics => mret Panics
        | Diverges => mret Diverges
        end
      else scan_parts path w parts
  end.

(** [handleUpload(w, r)]. *)
Definition handleUpload (w : ResponseWriter) (r : Request) : M (outcome ResponseWriter) :=
  v ← validatePath (BasePath config) (query_path r);
  match v with
  | Err err => mret (Returns (responseError w Http.StatusBadRequest (Error err)))
  | Ok path =>
      if negb (Strings.HasSuffix path "/") then
        mret (Returns (responseError w Http.StatusBadRequest "not a directory"))
      else
        match body r with
        | NotMultipart err =>
            mret (Returns (responseError w Http.StatusBadRequest (Error err)))
        | Multipart parts _ => scan_parts path w parts
        end
  end.

End Program.

(** ** Notions used in the statements *)

(** A string without a path separator. *)
Definition sep_free (s : string) : bool :=
  forallb (λ c, negb (Filepath.IsPathSeparator c)) (chars s).

(** The elements of a path: what stands between its separators, empty
    elements and [.] apart. *)
Definition is_element (e : string) : Prop := e ≠ "" ∧ e ≠ ".".

#[global] Instance is_element_dec e : Decision (is_element e).
Proof. unfold is_element. apply _. Defined.

Definition components (path : string) : list string :=
  filter is_element (Strings.Split path slash).

(** [descends base path]: the elements [path] are those of [base] followed
    by further ones, none of which is [..]. *)
Fixpoint descends (base path : list string) : bool :=
  match base, path with
  | [], rest => forallb (λ e, negb (String.eqb e "..")) rest
  | b :: base, e :: path => String.eqb b e && descends base path
  | _ :: _, [] => false
  end.

(** [confined base path]: [path] names the directory [base] or something
    below it.  Both are compared element by element, [base] in cleaned form;
    a rooted path is never inside a relative base, nor the converse. *)
Definition confined (base path : string) : bool :=
  Bool.eqb (Filepath.rooted (Filepath.Clean base)) (Filepath.rooted path)
  && descends (components (Filepath.Clean base)) (components path).


(** The events a run added to the trace: [evs] such that the trace after is
    [evs] in front of the trace before (latest first). *)
Definition added (w w' : World) (evs : list fs_event) : Prop :=
  trace w' = evs ++ trace w.

(** The double quote, and a JSON string literal of a name without special
    characters. *)
Definition dquote : string := String (ascii_of_nat 34) "".
Definition json_string (s : string) : string := dquote +:+ s +:+ dquote.
Definition json_array (l : list string) : string :=
  "[" +:+ Strings.Join (json_string <$> l) "," +:+ "]".

(** The course of the "check if file exists" loop in a given world, as a
    relation: [probes w ext i file evs ex] when the loop entered with [i]
    and [file] makes the [os.Stat] calls [evs] (latest first) and ends with
    [ex]. *)
Inductive probes (w : World) (ext : string) : Z → string → list fs_event → loop_exit → Prop :=
| probes_free i file :
    faults w SysStat file = None →
    nodes w !! file = None →
    probes w ext i file [EvStat file (Err (PathError "stat" file ENOENT))] (Break file)
| probes_fault i file f :
    faults w SysStat file = Some f →
    probes w ext i file
      [EvStat file (Err (PathError "stat" file (fault_errno f)))]
      (ReturnErr (PathError "stat" file (fault_errno f)))
| probes_panic i file n :
    faults w SysStat file = None →
    nodes w !! file = Some n →
    slice_to file (Z.of_nat (len file) - Z.of_nat (len ext)) = None →
    probes w ext i file [EvStat file (Ok {| fi_IsDir := is_dir n |})] SlicePanic
| probes_taken i file n stem evs ex :
    faults w SysStat file = None →
    nodes w !! file = Some n →
    slice_to file (Z.of_nat (len file) - Z.of_nat (len ext)) = Some stem →
    probes w ext (Strconv.wrap64 (i + 1))
      (stem +:+ " (" +:+ Strconv.Itoa (Strconv.wrap64 (i + 1)) +:+ ")" +:+ ext) evs ex →
    probes w ext i file (evs ++ [EvStat file (Ok {| fi_IsDir := is_dir n |})]) ex.

(** A world with the trace extended. *)
Definition traced (w : World) (evs : list fs_event) : World :=
  {| nodes := nodes w; faults := faults w; trace := evs ++ trace w |}.

(** The candidate names are paths of [nodes] no shorter than the current
    one; the loop ends before it has rejected them all. *)
Definition no_shorter (n : nat) (k : string) : Prop := (n ≤ len k)%nat.

#[global] Instance no_shorter_dec n k : Decision (no_shorter n k).
Proof. unfold no_shorter. apply _. Defined.

(** What [Clean] writes to its buffer: non-empty elements other than [.],
    without separators. *)
Definition written_ok (e : string) : Prop := is_element e ∧ sep_free e = true.

(** The invariant of [Clean]'s loop: the buffer holds [dotdot] elements [..]
    followed by ordinary names; a rooted path has no leading [..]. *)
Definition clean_inv (is_rooted : bool) (st : Filepath.cleaner) : Prop :=
  ∃ names,
    Filepath.out st = rev names ++ replicate (Filepath.dotdot st) ".."
    ∧ Forall (λ e, written_ok e ∧ e ≠ "..") names
    ∧ (is_rooted = true → Filepath.dotdot st = 0%nat).

(** The request paths [validatePath] does not reject as invalid. *)
Definition accepted (p : string) : Prop :=
  Filepath.Clean p = "."
  ∨ find (λ s, Strings.HasPrefix s ".") (Strings.Split (Filepath.Clean p) slash) = None.

(** Whether [upload] removes what it wrote. *)
Definition cleans_up (config : Config) (part : Part) : bool :=
  not_nil (read_err part) && negb (DontRemoveOnError config).

(** The write [io.Copy] makes for a part. *)
Definition write_events (f : string) (part : Part) : list fs_event :=
  match content part with [] => [] | data => [EvWrite f data] end.

(** A call of [os.Stat] in the loop that found a node, of whatever kind:
    a collision. *)
Definition collision (w : World) (ev : fs_event) : Prop :=
  ∃ c n, ev = EvStat c (Ok {| fi_IsDir := is_dir n |})
         ∧ nodes w !! c = Some n ∧ faults w SysStat c = None.

(** The name [handleList] lists for a directory entry, if any. *)
Definition listed (f : DirEntry) : option string :=
  if Strings.HasPrefix (Name f) "." then None
  else Some (if IsDir f then Name f +:+ "/" else Name f).

(** A part is the payload when its form field is [myFile]. *)
Definition payload (part : Part) : Prop := FormName part = "myFile".

(** What [handleUpload] answers at the payload, from what [upload]
    returned. *)
Definition upload_answer (w : ResponseWriter) (u : outcome (option error))
  : outcome ResponseWriter :=
  match u with
  | Returns None => Returns w
  | Returns (Some err) =>
      Returns (responseError w Http.StatusBadRequest ("upload failed: " +:+ Error err))
  | Panics => Panics
  | Diverges => Diverges
  end.

(** The answer 400 [unknown payload]. *)
Definition unknown_payload (o : outcome ResponseWriter) : Prop :=
  ∃ rw, o = Returns rw
        ∧ Http.response_status rw = 400
        ∧ Http.response_body rw = "unknown payload".

(** ** Example worlds and requests *)

Module Ex.

Definition bytes_hello : list Byte.byte := [Byte.x68; Byte.x69].

(** A machine whose served directory is [/srv/files]; the process runs
    in it, so [.] names the same directory. *)
Definition machine : World :=
  world_of
    [("/", Dir); ("/etc", Dir); ("/etc/passwd", File bytes_hello);
     ("/srv", Dir); ("/srv/files", Dir);
     ("/srv/files/b", File []); ("/srv/files/x", File []);
     ("/srv/files/report.pdf", File bytes_hello);
     ("/srv/files/docs", Dir);
     ("/srv/files/docs/.git", Dir); ("/srv/files/docs/a.txt", File []);
     ("/srv/files/docs/sub", Dir); ("/srv/files/docs/sub/deep.txt", File []);
     (".", Dir)].


Definition served : Config :=
  {| DisableDirectoryListing := false; DontRemoveOnError := false;
     BasePath := "/srv/files" |}.

Definition served_keeping : Config :=
  {| DisableDirectoryListing := false; DontRemoveOnError := true;
     BasePath := "/srv/files" |}.

Definition unlisted : Config :=
  {| DisableDirectoryListing := true; DontRemoveOnError := false;
     BasePath := "/srv/files" |}.


Definition format (t : string) (params : list (string * string)) : string :=
  t +:+ "; " +:+ Strings.Join ((λ kv, fst kv +:+ "=" +:+ snd kv) <$> params) "; ".

Definition report : Part :=
  {| FormName := "myFile"; FileName := "report.pdf";
     content := bytes_hello; read_err := None |}.

Definition broken_report : Part :=
  {| FormName := "myFile"; FileName := "report.pdf";
     content := bytes_hello; read_err := Some (ErrorString "unexpected EOF") |}.

Definition nameless : Part :=
  {| FormName := "myFile"; FileName := "";
     content := bytes_hello; read_err := None |}.

Definition comment : Part :=
  {| FormName := "comment"; FileName := "";
     content := []; read_err := None |}.

Definition get (path : string) : Request :=
  {| query_path := path; body := NotMultipart (ErrorString "request Content-Type isn't multipart/form-data") |}.

Definition post (path : string) (parts : list Part) : Request :=
  {| query_path := path; body := Multipart parts None |}.

(** The world after a run, and the nodes it changed. *)
Definition after {A} (r : A * World) : World := snd r.

End Ex.

(** * Properties *)

(** ** Byte strings *)

Section StringFacts.

Implicit Types (s t u : string) (c : ascii).

Lemma str_app_cons c s t : String c s +:+ t = String c (s +:+ t).
Proof. reflexivity. Qed.




Lemma len_app s t : len (s +:+ t) = (len s + len t)%nat.
Proof.
  unfold len. induction s as [|c s IH]; [done|]. rewrite str_app_cons. cbn. by rewrite IH.
Qed.

Lemma str_app_eq_nil s t : s +:+ t = "" → s = "" ∧ t = "".
Proof. destruct s; [done|]. by rewrite str_app_cons. Qed.




Lemma substring_app_l s t : String.substring 0 (len s) (s +:+ t) = s.
Proof.
  induction s as [|c s IH]; [by destruct t|]. rewrite str_app_cons. cbn. by f_equal.
Qed.

Lemma len_substring_0 n s : (n ≤ len s)%nat → len (String.substring 0 n s) = n.
Proof.
  unfold len. revert n. induction s as [|c s IH]; intros [|n]; cbn; try done; try lia.
  intros H. f_equal. apply IH. lia.
Qed.

Lemma eqb_true s t : String.eqb s t = true ↔ s = t.
Proof. apply String.eqb_eq. Qed.

Lemma eqb_false s t : String.eqb s t = false ↔ s ≠ t.
Proof. apply String.eqb_neq. Qed.

End StringFacts.

Ltac string_cases :=
  repeat match goal with
    | |- context [String.eqb ?a ?b] =>
        let E := fresh "E" in
        destruct (String.eqb a b) eqn:E;
        [apply eqb_true in E | apply eqb_false in E]
    end.

(** ** [strings.Split] and [strings.Join] *)

Section SplitFacts.

Import Strings.
Implicit Types (s t : string) (xs : list string).

Lemma Split_cons_sep s : Split (String slash s) slash = "" :: Split s slash.
Proof. reflexivity. Qed.

Lemma Split_nonempty s : Split s slash ≠ [].
Proof.
  destruct s as [|c s]; [done|]. cbn.
  destruct (Ascii.eqb c slash); [done|]. by destruct (Split s slash).
Qed.

Lemma Split_cons_other c s :
  Ascii.eqb c slash = false →
  ∃ x xs, Split s slash = x :: xs ∧ Split (String c s) slash = String c x :: xs.
Proof.
  intros Hc. cbn. rewrite Hc.
  destruct (Split s slash) as [|x xs] eqn:E; [by destruct (Split_nonempty s)|].
  by exists x, xs.
Qed.

(** Splitting distributes over a separator. *)
Lemma Split_app_sep s t :
  Split (s +:+ String slash t) slash = Split s slash ++ Split t slash.
Proof.
  induction s as [|c s IH]; [done|].
  rewrite str_app_cons. cbn. destruct (Ascii.eqb c slash).
  - by rewrite IH.
  - rewrite IH. destruct (Split s slash) as [|x xs] eqn:E; [|done].
    by destruct (Split_nonempty s).
Qed.

Lemma Split_sep_free s : Forall (λ x, sep_free x = true) (Split s slash).
Proof.
  induction s as [|c s IH]; [by repeat constructor|].
  cbn. destruct (Ascii.eqb c slash) eqn:Hc.
  - by constructor.
  - destruct (Split s slash) as [|x xs]; [repeat constructor|].
    + unfold sep_free. cbn. unfold Filepath.IsPathSeparator. by rewrite Hc.
    + inversion IH; subst. constructor; [|done].
      unfold sep_free in *. cbn. unfold Filepath.IsPathSeparator at 1. by rewrite Hc.
Qed.

Lemma Split_of_sep_free s : sep_free s = true → Split s slash = [s].
Proof.
  induction s as [|c s IH]; [done|].
  unfold sep_free. cbn. unfold Filepath.IsPathSeparator at 1.
  destruct (Ascii.eqb c slash); [done|]. cbn. intros H.
  by rewrite (IH H).
Qed.

Lemma Join_cons x y xs sep : Join (x :: y :: xs) sep = x +:+ sep +:+ Join (y :: xs) sep.
Proof. reflexivity. Qed.

(** Joining separator-free elements and splitting again gives them
    back. *)
Lemma Split_Join xs :
  xs ≠ [] → Forall (λ x, sep_free x = true) xs → Split (Join xs "/") slash = xs.
Proof.
  induction xs as [|x [|y xs] IH]; [done| |].
  - intros _ H. inversion H; subst. by apply Split_of_sep_free.
  - intros _ H. inversion H as [|? ? Hx Hxs]; subst.
    rewrite Join_cons. change ("/" +:+ ?r) with (String slash r).
    rewrite Split_app_sep, (Split_of_sep_free x Hx), IH; done.
Qed.

Lemma Join_Split s : Join (Split s slash) "/" = s.
Proof.
  induction s as [|c s IH]; [done|].
  cbn -[Join]. destruct (Ascii.eqb c slash) eqn:Hc.
  - apply Ascii.eqb_eq in Hc as ->.
    destruct (Split s slash) as [|x xs] eqn:E; [by destruct (Split_nonempty s)|].
    rewrite Join_cons, IH. done.
  - destruct (Split s slash) as [|x [|y xs]] eqn:E; [by destruct (Split_nonempty s)| |].
    + cbn in *. by rewrite IH.
    + rewrite Join_cons in *. rewrite str_app_cons. by rewrite IH.
Qed.


Lemma Join_eq_nil xs sep :
  Forall (λ x, x ≠ "") xs → Join xs sep = "" → xs = [].
Proof.
  destruct xs as [|x [|y xs]]; [done| |]; intros H; inversion H; subst.
  - done.
  - rewrite Join_cons. intros E. by apply str_app_eq_nil in E as [-> _].
Qed.

Lemma HasPrefix_app s t : HasPrefix (s +:+ t) s = true.
Proof.
  induction s as [|c s IH]; [by destruct t|].
  rewrite str_app_cons. cbn. rewrite Ascii.eqb_refl. done.
Qed.

Lemma HasPrefix_nil s : HasPrefix s "" = true.
Proof. by destruct s. Qed.

Lemma HasPrefix_spec s p : HasPrefix s p = true ↔ ∃ t, s = p +:+ t.
Proof.
  split.
  - revert s. induction p as [|c p IH]; intros s; [by exists s|].
    destruct s as [|d s]; [done|]. cbn.
    destruct (Ascii.eqb c d) eqn:E; [|done]. apply Ascii.eqb_eq in E as ->.
    intros [t ->]%IH. by exists t.
  - intros [t ->]. apply HasPrefix_app.
Qed.

Lemma HasSuffix_app_sep s : HasSuffix (s +:+ "/") "/" = true.
Proof.
  unfold HasSuffix. rewrite len_app. unfold len.
  change (String.length "/") with 1%nat.
  replace (String.length s + 1 - 1)%nat with (String.length s) by lia.
  apply andb_true_iff. split; [apply Nat.leb_le; lia|].
  apply eqb_true. induction s as [|c s IH]; [done|].
  rewrite str_app_cons. cbn. exact IH.
Qed.

Lemma HasSuffix_sep_inv s : HasSuffix s "/" = true → ∃ q, s = q +:+ "/".
Proof.
  unfold HasSuffix, len. change (String.length "/") with 1%nat.
  intros [Hl H]%andb_true_iff. apply Nat.leb_le in Hl. apply eqb_true in H.
  revert Hl H. induction s as [|c s IH]; [cbn; lia|]. intros _.
  destruct s as [|d s].
  - cbn. intros [= ->]. by exists "".
  - change (String.length (String c (String d s))) with (S (S (String.length s))).
    replace (S (S (String.length s)) - 1)%nat with (S (String.length s)) by lia.
    change (String.substring (S ?n) 1 (String c ?r)) with (String.substring n 1 r).
    intros H. destruct IH as [q Hq].
    + cbn. lia.
    + change (String.length (String d s)) with (S (String.length s)).
      by replace (S (String.length s) - 1)%nat with (String.length s) by lia.
    + exists (String c q). by rewrite str_app_cons, <- Hq.
Qed.

End SplitFacts.

(** ** [filepath.Clean] *)

Section CleanFacts.

Import Strings Filepath.
Implicit Types (s t e : string) (st : cleaner) (r : bool) (es : list string).

Lemma clean_inv_init r : clean_inv r {| out := []; dotdot := 0 |}.
Proof. exists []. by repeat split. Qed.

Lemma clean_inv_written r st : clean_inv r st → Forall written_ok (out st).
Proof.
  intros (names & -> & Hn & _). apply Forall_app. split.
  - apply Forall_rev. eapply Forall_impl; [exact Hn|]. by intros ? [? _].
  - apply Forall_replicate. by repeat split.
Qed.

Lemma clean_step_inv r st e :
  sep_free e = true → clean_inv r st → clean_inv r (clean_step r st e).
Proof.
  intros He (names & Hout & Hn & Hr). unfold clean_step.
  destruct (String.eqb e "") eqn:E1; [by exists names|]. apply eqb_false in E1.
  destruct (String.eqb e ".") eqn:E2; [by exists names|]. apply eqb_false in E2.
  destruct (String.eqb e "..") eqn:E3.
  - apply eqb_true in E3 as ->.
    destruct (dotdot st <? length (out st))%nat eqn:Hlt.
    + apply Nat.ltb_lt in Hlt. rewrite Hout in Hlt |- *.
      rewrite length_app, length_rev, length_replicate in Hlt.
      destruct names as [|n names _] using rev_ind; [cbn in Hlt; lia|].
      exists names. cbn [out dotdot]. rewrite rev_app_distr. cbn.
      apply Forall_app in Hn as [Hn _]. by repeat split.
    + apply Nat.ltb_ge in Hlt. rewrite Hout in Hlt.
      rewrite length_app, length_rev, length_replicate in Hlt.
      assert (names = []) as -> by (destruct names; [done|cbn in Hlt; lia]).
      destruct r; cbn [negb].
      * exists []. by repeat split.
      * exists []. cbn [out dotdot]. rewrite Hout. by repeat split.
  - apply eqb_false in E3. exists (names ++ [e]). cbn [out dotdot].
    rewrite rev_app_distr, Hout. repeat split; [|done].
    apply Forall_app. split; [done|]. by repeat constructor.
Qed.

Lemma clean_from_inv r st es :
  Forall (λ e, sep_free e = true) es → clean_inv r st →
  clean_inv r (fold_left (clean_step r) es st).
Proof.
  revert st. induction es as [|e es IH]; intros st Hes Hst; [done|].
  inversion Hes; subst. cbn. apply IH; [done|]. by apply clean_step_inv.
Qed.

Lemma clean_run_inv r s : clean_inv r (clean_run r (Split s slash)).
Proof. apply clean_from_inv; [apply Split_sep_free|apply clean_inv_init]. Qed.

(** Elements other than [..] are only ever pushed. *)
Lemma clean_from_plain r st es :
  Forall (λ e, e ≠ "..") es →
  fold_left (clean_step r) es st
  = {| out := rev (filter is_element es) ++ out st; dotdot := dotdot st |}.
Proof.
  revert st. induction es as [|e es IH]; intros st Hes; [by destruct st|].
  inversion Hes as [|? ? He Hes']; subst. cbn [fold_left]. rewrite IH by done.
  unfold clean_step.
  destruct (String.eqb e "") eqn:E1.
  { apply eqb_true in E1 as ->. rewrite filter_cons_False; [done|]. by intros [? ?]. }
  apply eqb_false in E1.
  destruct (String.eqb e ".") eqn:E2.
  { apply eqb_true in E2 as ->. rewrite filter_cons_False; [done|]. by intros [? ?]. }
  apply eqb_false in E2.
  destruct (String.eqb e "..") eqn:E3; [by apply eqb_true in E3|].
  rewrite filter_cons_True by done. cbn [out dotdot rev].
  by rewrite <- List.app_assoc.
Qed.

Lemma rooted_app s t : s ≠ "" → rooted (s +:+ t) = rooted s.
Proof. by destruct s. Qed.

Lemma written_ok_not_rooted e : written_ok e → rooted e = false.
Proof.
  intros [[Hne _] Hs]. destruct e as [|c e]; [done|].
  unfold sep_free in Hs. cbn in Hs. apply andb_true_iff in Hs as [Hs _].
  cbn. by apply negb_true_iff in Hs.
Qed.

Lemma Join_written_nonempty xs :
  Forall written_ok xs → xs ≠ [] → Strings.Join xs "/" ≠ "".
Proof.
  intros H Hne E. apply Join_eq_nil in E; [done|].
  eapply Forall_impl; [exact H|]. by intros ? [[? _] _].
Qed.

Lemma rooted_Join_written xs :
  Forall written_ok xs → rooted (Strings.Join xs "/") = false.
Proof.
  destruct xs as [|x [|y xs]]; [done| |]; intros H; inversion H; subst.
  - by apply written_ok_not_rooted.
  - rewrite Join_cons, rooted_app; [by apply written_ok_not_rooted|].
    by destruct H2 as [[? _] _].
Qed.

Lemma filter_written xs : Forall written_ok xs → filter is_element xs = xs.
Proof.
  induction 1 as [|x xs [Hx _] _ IH]; [done|].
  by rewrite filter_cons_True, IH.
Qed.

(** The elements of a cleaned path are the buffer's. *)
Lemma Split_render r st :
  clean_inv r st →
  Split (clean_render r st) slash
  = (if r then [""] else []) ++
    (match out st with [] => [if r then "" else "."] | _ => rev (out st) end).
Proof.
  intros Hinv. pose proof (clean_inv_written _ _ Hinv) as Hw.
  apply Forall_rev in Hw. unfold clean_render.
  destruct (out st) as [|x xs] eqn:Hout.
  - by destruct r.
  - assert (rev (x :: xs) ≠ []) as Hne.
    { intros E. apply (f_equal (@length string)) in E.
      rewrite length_rev in E. done. }
    assert (Split (Strings.Join (rev (x :: xs)) "/") slash = rev (x :: xs)) as HS.
    { apply Split_Join; [done|]. eapply Forall_impl; [exact Hw|]. by intros ? [_ ?]. }
    destruct r.
    + by rewrite Split_cons_sep, HS.
    + destruct (String.eqb _ "") eqn:E; [|done].
      apply eqb_true in E. by apply Join_written_nonempty in E.
Qed.

Lemma components_render r st :
  clean_inv r st → components (clean_render r st) = rev (out st).
Proof.
  intros Hinv. unfold components. rewrite Split_render by done.
  pose proof (clean_inv_written _ _ Hinv) as Hw.
  rewrite filter_app.
  assert (filter is_element (if r then [""] else []) = []) as ->.
  { destruct r; [|done]. rewrite filter_cons_False; [done|]. by intros [? ?]. }
  destruct (out st) as [|x xs] eqn:Hout.
  - destruct r; (rewrite filter_cons_False; [done|]; by intros [? ?]).
  - cbn [app]. apply filter_written. by apply Forall_rev.
Qed.

Lemma rooted_render r st : clean_inv r st → rooted (clean_render r st) = r.
Proof.
  intros Hinv. pose proof (clean_inv_written _ _ Hinv) as Hw.
  apply Forall_rev in Hw. unfold clean_render. destruct r; [done|].
  destruct (String.eqb _ "") eqn:E; [done|]. by apply rooted_Join_written.
Qed.

Lemma render_nonempty r st : clean_inv r st → clean_render r st ≠ "".
Proof.
  intros Hinv. unfold clean_render. destruct r; [done|].
  destruct (String.eqb _ "") eqn:E; [done|]. by apply eqb_false in E.
Qed.




Lemma Clean_unfold s :
  s ≠ "" → Clean s = clean_render (rooted s) (clean_run (rooted s) (Split s slash)).
Proof. intros H. unfold Clean. by apply eqb_false in H as ->. Qed.

Lemma Clean_nonempty s : Clean s ≠ "".
Proof.
  unfold Clean. destruct (String.eqb s ""); [done|].
  apply render_nonempty, clean_run_inv.
Qed.


Lemma rooted_Clean s : rooted (Clean s) = rooted s.
Proof.
  unfold Clean. destruct (String.eqb s "") eqn:E; [by apply eqb_true in E as ->|].
  apply rooted_render, clean_run_inv.
Qed.

Lemma components_Clean s :
  components (Clean s) = rev (out (clean_run (rooted s) (Split s slash))).
Proof.
  unfold Clean. destruct (String.eqb s "") eqn:E; [by apply eqb_true in E as ->|].
  apply components_render, clean_run_inv.
Qed.

End CleanFacts.

(** ** [filepath.Join] *)

Section JoinFacts.

Import Strings Filepath.
Implicit Types (s t base p : string).

Lemma Join_base base p : base ≠ "" → Filepath.Join [base; p] = Clean (base +:+ "/" +:+ p).
Proof. intros H. cbn -[Clean]. by apply eqb_false in H as ->. Qed.


(** Joining a path without [..] elements onto a base appends its elements
    to the cleaned base. *)
Lemma Join_plain base p :
  base ≠ "" → Forall (λ e, e ≠ "..") (Split p slash) →
  let stb := clean_run (rooted base) (Split base slash) in
  let st := {| out := rev (filter is_element (Split p slash)) ++ out stb;
               dotdot := dotdot stb |} in
  Filepath.Join [base; p] = clean_render (rooted base) st
  ∧ clean_inv (rooted base) st.
Proof.
  intros Hb Hp stb st. rewrite Join_base by done.
  assert (base +:+ "/" +:+ p ≠ "") as Hne by by destruct base.
  rewrite Clean_unfold by done.
  change ("/" +:+ p) with (String slash p).
  rewrite rooted_app, Split_app_sep by done.
  unfold clean_run. rewrite fold_left_app. fold (clean_run (rooted base) (Split base slash)).
  fold stb. rewrite clean_from_plain by done. fold st. split; [done|].
  unfold st. rewrite <- (clean_from_plain (rooted base) stb) by done.
  apply clean_from_inv; [apply Split_sep_free|apply clean_run_inv].
Qed.

Lemma components_Join_plain base p :
  base ≠ "" → Forall (λ e, e ≠ "..") (Split p slash) →
  components (Filepath.Join [base; p])
  = components (Clean base) ++ filter is_element (Split p slash)
  ∧ rooted (Filepath.Join [base; p]) = rooted base.
Proof.
  intros Hb Hp. destruct (Join_plain base p Hb Hp) as [-> Hinv].
  rewrite components_render, rooted_render by done. cbn [out].
  by rewrite rev_app_distr, rev_involutive, components_Clean.
Qed.

Lemma components_app_sep s : components (s +:+ "/") = components s.
Proof.
  unfold components. change "/" with (String slash "").
  rewrite Split_app_sep, filter_app. cbn [Split].
  rewrite (filter_cons_False _ ""), filter_nil; [by rewrite List.app_nil_r|].
  by intros [? ?].
Qed.

Lemma Forall_filter_keep {A} (P Q : A → Prop) `{∀ x, Decision (Q x)} (l : list A) :
  Forall P l → Forall P (filter Q l).
Proof.
  rewrite !Forall_forall. intros Hl x [_ Hx]%list_elem_of_filter. auto.
Qed.

Lemma descends_app (bs rest : list string) :
  Forall (λ e, e ≠ "..") rest → descends bs (bs ++ rest) = true.
Proof.
  intros Hr. induction bs as [|b bs IH]; cbn.
  - apply forallb_forall. intros e He. apply negb_true_iff, eqb_false.
    rewrite Forall_forall in Hr. apply Hr. by apply list_elem_of_In.
  - by rewrite String.eqb_refl.
Qed.


Lemma find_HasPrefix_None_plain xs :
  find (λ s, HasPrefix s ".") xs = None → Forall (λ e, e ≠ "..") xs.
Proof.
  induction xs as [|x xs IH]; [done|]. cbn.
  destruct (HasPrefix x ".") eqn:E; [done|]. intros H. constructor; [|auto].
  by intros ->.
Qed.

End JoinFacts.

(** ** The monad *)

Ltac in_list := apply list_elem_of_In; cbn; tauto.

Ltac run_M :=
  unfold mbind, M_bind, mret, M_ret, emit, get_world, set_nodes in *; cbn beta iota in *.

(** ** [validatePath] *)

Section ValidatePath.

Import Strings Filepath.

Lemma accepted_plain p : accepted p → Forall (λ e, e ≠ "..") (Split (Clean p) slash).
Proof.
  intros [->|H]; [by repeat constructor|]. by apply find_HasPrefix_None_plain.
Qed.

(** What a successful validation did: one [os.Stat] of the joined path,
    which found a node. *)
Lemma validatePath_Ok base p w r w' :
  validatePath base p w = (Ok r, w') →
  let q := Filepath.Join [base; Clean p] in
  accepted p
  ∧ faults w SysStat q = None
  ∧ ∃ n, nodes w !! q = Some n
       ∧ r = (if is_dir n then q +:+ "/" else q)
       ∧ w' = {| nodes := nodes w; faults := faults w;
                 trace := EvStat q (Ok {| fi_IsDir := is_dir n |}) :: trace w |}.
Proof.
  intros H q. unfold validatePath in H. unfold accepted. cbv zeta in H.
  destruct (String.eqb (Clean p) ".") eqn:E1; cbn [negb andb] in H.
  - apply eqb_true in E1. unfold Os.Stat, Os.stat_of in H. run_M. fold q in H.
    destruct (faults w SysStat q); [done|].
    destruct (nodes w !! q) as [n|]; [|done].
    injection H as <- <-. split; [by left|]. split; [done|]. by exists n.
  - destruct (String.eqb (Clean p) "") eqn:E2; cbn [negb] in H.
    { apply eqb_true in E2. by apply Clean_nonempty in E2. }
    destruct (find _ _) eqn:F; [done|].
    unfold Os.Stat, Os.stat_of in H. run_M. fold q in H.
    destruct (faults w SysStat q); [done|].
    destruct (nodes w !! q) as [n|]; [|done].
    injection H as <- <-. split; [by right|]. split; [done|]. by exists n.
Qed.

(** X: for a non-empty base, a validated path is the cleaned base or lies
    below it. *)
Lemma validatePath_confined base p w r w' :
  base ≠ "" → validatePath base p w = (Ok r, w') → confined base r = true.
Proof.
  intros Hb H. apply validatePath_Ok in H as (Hacc & _ & n & _ & -> & _).
  apply accepted_plain in Hacc.
  destruct (components_Join_plain base (Clean p) Hb Hacc) as [Hc Hr].
  assert (Filepath.Join [base; Clean p] ≠ "") as Hne.
  { rewrite Join_base by done. apply Clean_nonempty. }
  unfold confined. apply andb_true_iff. split.
  - rewrite rooted_Clean. apply Bool.eqb_true_iff.
    destruct (is_dir n); [rewrite rooted_app by done|]; by rewrite Hr.
  - assert (components (if is_dir n then Filepath.Join [base; Clean p] +:+ "/"
                        else Filepath.Join [base; Clean p])
            = components (Filepath.Join [base; Clean p])) as ->.
    { destruct (is_dir n); [apply components_app_sep|done]. }
    rewrite Hc. apply descends_app.
    by apply Forall_filter_keep.
Qed.


(** C1 (code defect).  [config] is left at its zero value, so the base path
    is the empty string, which [filepath.Join] ignores: a rooted request
    path is validated as it stands, and [/list?path=/etc/passwd] hands
    [/etc/passwd] to [http.ServeFile].  The path is not confined to the
    base (the directory the server runs in). *)
Theorem validatePath_zero_config_escapes format :
  BasePath zero_config = ""
  ∧ fst (validatePath (BasePath zero_config) "/etc/passwd" Ex.machine) = Ok "/etc/passwd"
  ∧ confined (BasePath zero_config) "/etc/passwd" = false
  ∧ served (fst (handleList zero_config format Http.fresh (Ex.get "/etc/passwd") Ex.machine))
    = Some "/etc/passwd".
Proof. by vm_compute. Qed.

(** C2, as stated, fails: [a/../b] and [./x] contain a [..] and a [.]
    segment, and both are validated, since the segments are checked after
    cleaning, which removes them. *)
Lemma validatePath_accepts_cleaned_away :
  ".." ∈ Split "a/../b" slash
  ∧ fst (validatePath "/srv/files" "a/../b" Ex.machine) = Ok "/srv/files/b"
  ∧ "." ∈ Split "./x" slash
  ∧ fst (validatePath "/srv/files" "./x" Ex.machine) = Ok "/srv/files/x".
Proof.
  split; [in_list|]. split; [by vm_compute|].
  split; [in_list|]. by vm_compute.
Qed.

Lemma validatePath_invalid base p w s :
  Clean p ≠ "." →
  find (λ s, HasPrefix s ".") (Split (Clean p) slash) = Some s →
  validatePath base p w = (Err (ErrorString ("invalid path: " +:+ s)), w).
Proof.
  intros Hp Hs. unfold validatePath. cbv zeta.
  apply eqb_false in Hp as ->.
  pose proof (Clean_nonempty p) as Hne. apply eqb_false in Hne as ->.
  cbn [negb andb]. by rewrite Hs.
Qed.

(** C2, amended.  When the cleaned path is not [.] and has a segment that
    starts with [.], validation fails with [invalid path: s], [s] being
    the first such segment, whatever the base; the file system is not
    consulted. *)
Theorem validatePath_rejects_dot_segment base p w s :
  Clean p ≠ "." →
  find (λ s, HasPrefix s ".") (Split (Clean p) slash) = Some s →
  validatePath base p w = (Err (ErrorString ("invalid path: " +:+ s)), w)
  ∧ Error (ErrorString ("invalid path: " +:+ s)) = "invalid path: " +:+ s
  ∧ s ∈ Split (Clean p) slash ∧ HasPrefix s "." = true.
Proof.
  intros Hp Hs. split; [by apply validatePath_invalid|]. split; [done|].
  apply find_some in Hs as [Hin Hpre]. split; [|done].
  by apply list_elem_of_In.
Qed.

Lemma validatePath_rejects_dot_segment_witness :
  validatePath "/srv/files" "docs/../../etc" Ex.machine
  = (Err (ErrorString "invalid path: ..") , Ex.machine)
  ∧ Error (ErrorString "invalid path: ..") = "invalid path: .."
  ∧ ".." ∈ Split (Clean "docs/../../etc") slash ∧ HasPrefix ".." "." = true.
Proof.
  apply (validatePath_rejects_dot_segment "/srv/files" "docs/../../etc" Ex.machine "..").
  - by vm_compute.
  - by vm_compute.
Defined.

(** A hidden segment in a path without [..] survives cleaning, so such a
    path is always rejected. *)
Theorem validatePath_rejects_hidden base p w s0 :
  s0 ∈ Split p slash → HasPrefix s0 "." = true → s0 ≠ "." →
  ".." ∉ Split p slash →
  ∃ s, s ∈ Split p slash ∧ HasPrefix s "." = true
       ∧ validatePath base p w = (Err (ErrorString ("invalid path: " +:+ s)), w).
Proof.
  intros Hin Hpre Hnd Hdd.
  assert (p ≠ "") as Hp.
  { intros ->. apply list_elem_of_In in Hin as [<-|[]]. done. }
  assert (Forall (λ e, e ≠ "..") (Split p slash)) as Hplain.
  { apply Forall_forall. intros e He ->. done. }
  assert (is_element s0) as Hel by (split; [by intros ->|done]).
  pose proof (Clean_unfold p Hp) as HC. unfold clean_run in HC.
  rewrite clean_from_plain in HC by done. cbn [out dotdot] in HC.
  rewrite List.app_nil_r in HC.
  set (st := {| out := rev (filter is_element (Split p slash)); dotdot := 0 |}) in HC.
  assert (clean_inv (rooted p) st) as Hinv.
  { unfold st. rewrite <- (List.app_nil_r (rev _)).
    change [] with (out {| out := []; dotdot := 0 |}) at 1.
    change 0%nat with (dotdot {| out := []; dotdot := 0 |}).
    rewrite <- (clean_from_plain (rooted p)) by done. apply clean_run_inv. }
  assert (s0 ∈ filter is_element (Split p slash)) as Hin' by by apply list_elem_of_filter.
  assert (Split (Clean p) slash
          = (if rooted p then [""] else []) ++ filter is_element (Split p slash)) as HS.
  { rewrite HC, Split_render by done. f_equal. cbn [out].
    destruct (rev (filter is_element (Split p slash))) as [|x xs] eqn:E.
    - apply (f_equal (@rev string)) in E. rewrite rev_involutive in E.
      rewrite E in Hin'. by apply list_elem_of_In in Hin'.
    - by rewrite <- (rev_involutive (filter _ _)), E. }
  destruct (find (λ s, HasPrefix s ".") (Split (Clean p) slash)) as [s|] eqn:F.
  - exists s. pose proof F as F'. apply find_some in F' as [Hs1 Hs2].
    split; [|split; [done|]].
    + rewrite HS in Hs1. apply in_app_or in Hs1 as [Hs1|Hs1].
      * destruct (rooted p); [|done]. destruct Hs1 as [<-|[]]. done.
      * apply list_elem_of_In, list_elem_of_filter in Hs1. tauto.
    + apply validatePath_invalid; [|done].
      intros E. rewrite E in HS. cbn in HS.
      assert (s0 ∈ ["."]) as Hs0.
      { rewrite HS. apply elem_of_app. by right. }
      by apply list_elem_of_In in Hs0 as [?|[]].
  - exfalso. eapply find_none in F.
    + by rewrite Hpre in F.
    + rewrite HS. apply in_or_app. right. by apply list_elem_of_In.
Qed.

Lemma validatePath_rejects_hidden_witness :
  ∃ s, s ∈ Split "docs/.git/config" slash ∧ HasPrefix s "." = true
       ∧ validatePath "/srv/files" "docs/.git/config" Ex.machine
         = (Err (ErrorString ("invalid path: " +:+ s)), Ex.machine).
Proof.
  apply (validatePath_rejects_hidden "/srv/files" "docs/.git/config" Ex.machine ".git").
  - in_list.
  - done.
  - done.
  - intros H. apply list_elem_of_In in H. cbn in H. intuition discriminate.
Defined.

Lemma validatePath_confined_witness :
  confined "/srv/files" "/srv/files/docs/" = true.
Proof.
  apply (validatePath_confined "/srv/files" "docs" Ex.machine "/srv/files/docs/"
           (traced Ex.machine [EvStat "/srv/files/docs" (Ok {| fi_IsDir := true |})])).
  - done.
  - by vm_compute.
Defined.

End ValidatePath.

(** ** The collision loop of [upload] *)

Section UploadLoop.

Import Strings Filepath Strconv.

Lemma Stat_run name w : Os.Stat name w = (Os.stat_of w name, traced w [EvStat name (Os.stat_of w name)]).
Proof. reflexivity. Qed.

Lemma stat_of_traced w evs name : Os.stat_of (traced w evs) name = Os.stat_of w name.
Proof. reflexivity. Qed.

Lemma traced_traced w evs evs' : traced (traced w evs) evs' = traced w (evs' ++ evs).
Proof. unfold traced. cbn. by rewrite List.app_assoc. Qed.

Lemma probes_traced w evs0 ext i file evs ex :
  probes (traced w evs0) ext i file evs ex → probes w ext i file evs ex.
Proof. induction 1; econstructor; eauto. Qed.

Lemma is_ErrNotExist_fault op path f :
  is_ErrNotExist (PathError op path (fault_errno f)) = false.
Proof. by destruct f. Qed.

(** The loop follows [probes]: it changes nothing but the trace. *)
Lemma upload_loop_probes fuel ext i file w ex w' :
  upload_loop fuel ext i file w = (Some ex, w') →
  ∃ evs, probes w ext i file evs ex ∧ w' = traced w evs.
Proof.
  revert i file w ex w'. induction fuel as [|fuel IH]; intros i file w ex w'; [done|].
  cbn [upload_loop]. unfold mbind, M_bind. rewrite Stat_run.
  unfold Os.stat_of.
  destruct (faults w SysStat file) as [f|] eqn:Hf.
  { rewrite is_ErrNotExist_fault. intros [= <- <-]. eexists.
    split; [by apply probes_fault|done]. }
  destruct (nodes w !! file) as [n|] eqn:Hn.
  - destruct (slice_to _ _) as [stem|] eqn:Hs.
    + intros H. apply IH in H as (evs & Hp & ->).
      exists (evs ++ [EvStat file (Ok {| fi_IsDir := is_dir n |})]). split.
      * eapply probes_taken; eauto. by eapply probes_traced.
      * by rewrite traced_traced.
    + intros [= <- <-]. eexists. split; [by eapply probes_panic|done].
  - cbn. intros [= <- <-]. eexists. split; [by apply probes_free|done].
Qed.

Lemma len_slice_to s n stem : slice_to s n = Some stem → Z.of_nat (len stem) = n.
Proof.
  unfold slice_to. destruct (_ && _) eqn:E; [|done]. intros [= <-].
  apply andb_true_iff in E as [H1 H2]. apply Z.leb_le in H1, H2.
  rewrite len_substring_0; lia.
Qed.

Lemma next_candidate_longer file ext stem t :
  slice_to file (Z.of_nat (len file) - Z.of_nat (len ext)) = Some stem →
  (len file < len (stem +:+ " (" +:+ t +:+ ")" +:+ ext))%nat.
Proof.
  intros H%len_slice_to. rewrite !len_app. unfold len in *. cbn. lia.
Qed.

(** The loop ends: each rejected candidate is a path of [nodes], and the
    next one is longer. *)
Lemma upload_loop_ends fuel ext i file w :
  (size (filter (no_shorter (len file)) (dom (nodes w))) < fuel)%nat →
  ∃ ex w', upload_loop fuel ext i file w = (Some ex, w').
Proof.
  revert i file w. induction fuel as [|fuel IH]; intros i file w Hsz; [lia|].
  cbn [upload_loop]. unfold mbind, M_bind. rewrite Stat_run.
  unfold Os.stat_of.
  destruct (faults w SysStat file) as [f|] eqn:Hf.
  { rewrite is_ErrNotExist_fault. eauto. }
  destruct (nodes w !! file) as [n|] eqn:Hn; [|cbn; eauto].
  destruct (slice_to _ _) as [stem|] eqn:Hs; [|eauto].
  apply IH. cbn [traced nodes].
  eapply Nat.lt_le_trans; [|apply Nat.lt_succ_r, Hsz].
  apply subset_size. apply strict_spec_alt. split.
  - intros k [Hk Hd]%elem_of_filter. apply elem_of_filter. split; [|done].
    unfold no_shorter in *.
    pose proof (next_candidate_longer file ext stem (Itoa (wrap64 (i + 1))) Hs). lia.
  - intros E.
    assert (file ∈ filter (no_shorter (len file)) (dom (nodes w))) as Hin.
    { apply elem_of_filter. split; [unfold no_shorter; lia|].
      apply elem_of_dom. eauto. }
    rewrite <- E in Hin. apply elem_of_filter in Hin as [Hk _].
    unfold no_shorter in Hk.
    pose proof (next_candidate_longer file ext stem (Itoa (wrap64 (i + 1))) Hs). lia.
Qed.

Lemma upload_loop_total ext i file w :
  ∃ ex w', upload_loop (S (size (nodes w))) ext i file w = (Some ex, w').
Proof.
  apply upload_loop_ends. apply Nat.lt_succ_r.
  rewrite <- size_dom. apply subseteq_size.
  intros k [_ Hk]%elem_of_filter. done.
Qed.

(** What [probes] says about the exit and the calls made. *)
Lemma probes_Break w ext i file evs f :
  probes w ext i file evs (Break f) →
  nodes w !! f = None ∧ faults w SysStat f = None
  ∧ ∃ evs', evs = EvStat f (Err (PathError "stat" f ENOENT)) :: evs'.
Proof.
  remember (Break f) as ex eqn:E. induction 1; try done.
  - injection E as ->. eauto.
  - destruct (IHprobes E) as (? & ? & evs' & ->). repeat split; try done.
    by eexists.
Qed.

Lemma probes_stats w ext i file evs ex :
  probes w ext i file evs ex →
  Forall (λ ev, ∃ c r, ev = EvStat c r ∧ r = Os.stat_of w c) evs.
Proof.
  induction 1 as [i file Hf Hn|i file f Hf|i file n Hf Hn Hs|i file n stem evs ex Hf Hn Hs _ IH].
  - repeat constructor. eexists _, _. split; [done|]. unfold Os.stat_of. by rewrite Hf, Hn.
  - repeat constructor. eexists _, _. split; [done|]. unfold Os.stat_of. by rewrite Hf.
  - repeat constructor. eexists _, _. split; [done|]. unfold Os.stat_of. by rewrite Hf, Hn.
  - apply Forall_app. split; [done|]. repeat constructor.
    eexists _, _. split; [done|]. unfold Os.stat_of. by rewrite Hf, Hn.
Qed.

End UploadLoop.

(** ** [upload] *)

Section Upload.

Import Strings Filepath Strconv.

Variable config : Config.

(** Every run of [upload], in terms of [probes]. *)
Lemma upload_spec path part w res w' :
  upload config path part w = (res, w') →
  ∃ evs ex,
    probes w (Ext (FileName part)) 0 (Filepath.Join [path; FileName part]) evs ex
    ∧ match ex with
      | SlicePanic => res = Panics ∧ w' = traced w evs
      | ReturnErr err => res = Returns (Some err) ∧ w' = traced w evs
      | Break f =>
          match faults w SysCreate f with
          | Some flt =>
              res = Returns (Some (PathError "open" f (fault_errno flt)))
              ∧ w' = traced w (EvCreate f (Err (PathError "open" f (fault_errno flt))) :: evs)
          | None =>
              res = Returns (read_err part)
              ∧ faults w' = faults w
              ∧ nodes w' = (if cleans_up config part then nodes w
                            else <[f := File (content part)]> (nodes w))
              ∧ trace w' = (if cleans_up config part then [EvRemove f] else [])
                           ++ write_events f part
                           ++ EvCreate f (Ok f) :: evs ++ trace w
          end
      end.
Proof.
  unfold upload. cbv zeta. unfold mbind at 1, M_bind at 1, get_world at 1.
  unfold mbind at 1, M_bind at 1.
  destruct (upload_loop_total (Ext (FileName part)) 0
              (Filepath.Join [path; FileName part]) w) as (ex & w1 & Hloop).
  rewrite Hloop. apply upload_loop_probes in Hloop as (evs & Hp & ->).
  intros H. exists evs, ex. split; [done|].
  destruct ex as [f|err|].
  - apply probes_Break in Hp as (Hn & Hf & _).
    unfold Os.Create in H. run_M. cbn [traced nodes faults trace] in H.
    rewrite Hn in H.
    destruct (faults w SysCreate f) as [flt|] eqn:Hc.
    { by injection H as <- <-. }
    unfold io_Copy, Os.Write, Os.Remove, cleans_up, write_events in *. run_M.
    cbn [nodes faults trace] in H.
    destruct (content part) as [|b data] eqn:Hd; cbn [nodes faults trace] in H.
    + destruct (not_nil (read_err part) && negb (DontRemoveOnError config)) eqn:Hr;
        cbn [nodes faults trace] in H; injection H as <- <-; cbn [nodes faults trace].
      * repeat split; try done. rewrite delete_insert_eq. by apply delete_id.
      * by repeat split.
    + rewrite lookup_insert_eq in H. cbn [app] in H.
      destruct (not_nil (read_err part) && negb (DontRemoveOnError config)) eqn:Hr;
        cbn [nodes faults trace] in H; injection H as <- <-; cbn [nodes faults trace].
      * repeat split; try done. rewrite !delete_insert_eq. by apply delete_id.
      * repeat split; try done. by rewrite insert_insert_eq.
  - by injection H as <- <-.
  - by injection H as <- <-.
Qed.

End Upload.

Section UploadClaims.

Import Strings Filepath Strconv.
Implicit Types (cfg : Config) (part : Part) (w : World).

Lemma probes_shape w ext i file evs ex :
  probes w ext i file evs ex →
  ∃ ev rest, evs = ev :: rest ∧ Forall (collision w) rest
             ∧ ∃ c, ev = EvStat c (Os.stat_of w c).
Proof.
  induction 1 as [i file Hf Hn|i file f Hf|i file n Hf Hn Hs
                 |i file n stem evs ex Hf Hn Hs _ (ev & rest & -> & Hrest & Hev)].
  - eexists _, []. repeat split; [done|]. exists file.
    unfold Os.stat_of. by rewrite Hf, Hn.
  - eexists _, []. repeat split; [done|]. exists file.
    unfold Os.stat_of. by rewrite Hf.
  - eexists _, []. repeat split; [done|]. exists file.
    unfold Os.stat_of. by rewrite Hf, Hn.
  - exists ev, (rest ++ [EvStat file (Ok {| fi_IsDir := is_dir n |})]).
    repeat split; [|done]. apply Forall_app. split; [done|].
    repeat constructor. by exists file, n.
Qed.

Lemma probes_no_create w ext i file evs ex f r :
  probes w ext i file evs ex → EvCreate f r ∉ evs.
Proof.
  intros Hp%probes_stats Hin. rewrite Forall_forall in Hp.
  by destruct (Hp _ Hin) as (? & ? & ? & _).
Qed.

(** The events of one run of [upload], read off [upload_spec]. *)
Lemma upload_created cfg path part w res w' evs f r :
  upload cfg path part w = (res, w') → added w w' evs → EvCreate f r ∈ evs →
  ∃ stats,
    probes w (Ext (FileName part)) 0 (Filepath.Join [path; FileName part]) stats (Break f)
    ∧ match faults w SysCreate f with
      | Some flt =>
          r = Err (PathError "open" f (fault_errno flt))
          ∧ res = Returns (Some (PathError "open" f (fault_errno flt)))
          ∧ evs = EvCreate f r :: stats
          ∧ nodes w' = nodes w
      | None =>
          r = Ok f
          ∧ res = Returns (read_err part)
          ∧ evs = (if cleans_up cfg part then [EvRemove f] else [])
                  ++ write_events f part ++ EvCreate f r :: stats
          ∧ nodes w' = (if cleans_up cfg part then nodes w
                        else <[f := File (content part)]> (nodes w))
      end.
Proof.
  intros (stats & ex & Hp & H)%upload_spec Hadd Hin. unfold added in Hadd.
  destruct ex as [f0|err|].
  - destruct (faults w SysCreate f0) as [flt|] eqn:Hc.
    + destruct H as [-> ->]. cbn [traced trace] in Hadd.
      apply app_inv_tail in Hadd as <-.
      apply elem_of_cons in Hin as [[= -> ->]|Hin];
        [|by apply (probes_no_create _ _ _ _ _ _ _ _ Hp) in Hin].
      exists stats. rewrite Hc. by repeat split.
    + destruct H as (-> & _ & Hn & Ht). rewrite Ht in Hadd.
      rewrite !List.app_assoc in Hadd.
      change (?a ++ EvCreate f0 (Ok f0) :: stats ++ trace w)
        with (a ++ (EvCreate f0 (Ok f0) :: stats) ++ trace w) in Hadd.
      rewrite List.app_assoc in Hadd. apply app_inv_tail in Hadd. subst evs.
      rewrite <- List.app_assoc in Hin.
      assert (f = f0 ∧ r = Ok f0) as [-> ->].
      { unfold write_events in Hin.
        apply elem_of_app in Hin as [Hin|Hin].
        { destruct (cleans_up cfg part);
            apply list_elem_of_In in Hin; cbn in Hin; intuition discriminate. }
        apply elem_of_app in Hin as [Hin|Hin].
        { destruct (content part);
            apply list_elem_of_In in Hin; cbn in Hin; intuition discriminate. }
        apply elem_of_cons in Hin as [[= -> ->]|Hin]; [done|].
        by apply (probes_no_create _ _ _ _ _ _ _ _ Hp) in Hin. }
      exists stats. rewrite Hc. repeat split; try done.
      by rewrite <- List.app_assoc.
  - destruct H as [-> ->]. cbn [traced trace] in Hadd.
    apply app_inv_tail in Hadd as <-.
    by apply (probes_no_create _ _ _ _ _ _ _ _ Hp) in Hin.
  - destruct H as [-> ->]. cbn [traced trace] in Hadd.
    apply app_inv_tail in Hadd as <-.
    by apply (probes_no_create _ _ _ _ _ _ _ _ Hp) in Hin.
Qed.

(** C3 (code defect).  The directory holds [report.pdf].  The first upload
    of [report.pdf] is stored as [report (1).pdf]; the second one is stored
    as [report (1) (2).pdf], not as [report (2).pdf]: the loop rewrites
    the candidate of the previous iteration, not the original name. *)
Theorem upload_suffixes_accumulate :
  let w1 := snd (upload Ex.served "/srv/files/" Ex.report Ex.machine) in
  let w2 := snd (upload Ex.served "/srv/files/" Ex.report w1) in
  fst (upload Ex.served "/srv/files/" Ex.report Ex.machine) = Returns None
  ∧ nodes w1 !! "/srv/files/report (1).pdf" = Some (File Ex.bytes_hello)
  ∧ fst (upload Ex.served "/srv/files/" Ex.report w1) = Returns None
  ∧ nodes w2 !! "/srv/files/report (1) (2).pdf" = Some (File Ex.bytes_hello)
  ∧ nodes w2 !! "/srv/files/report (2).pdf" = None.
Proof. by vm_compute. Qed.

(** C5.  When [upload] returns nil, it has created one file, at a path
    where there was none, holding exactly the bytes the part delivered up
    to its end; every node present before is still there, unchanged. *)
Theorem upload_success_frame cfg path part w w' :
  upload cfg path part w = (Returns None, w') →
  read_err part = None
  ∧ ∃ f, nodes w !! f = None
         ∧ nodes w' = <[f := File (content part)]> (nodes w)
         ∧ nodes w' !! f = Some (File (content part))
         ∧ ∀ k n, nodes w !! k = Some n → nodes w' !! k = Some n.
Proof.
  intros (stats & ex & Hp & H)%upload_spec.
  destruct ex as [f|err|]; [|by destruct H|by destruct H].
  apply probes_Break in Hp as (Hn & _ & _).
  destruct (faults w SysCreate f); [by destruct H|].
  destruct H as (Hres & _ & Hnodes & _). injection Hres as Hres.
  split; [done|]. unfold cleans_up in Hnodes. rewrite <- Hres in Hnodes.
  cbn in Hnodes. exists f. rewrite Hnodes. repeat split; [done|..].
  - apply lookup_insert_eq.
  - intros k n Hk. rewrite lookup_insert_ne; [done|]. intros ->. congruence.
Qed.

Lemma upload_success_frame_witness :
  read_err Ex.report = None
  ∧ ∃ f, nodes Ex.machine !! f = None
         ∧ nodes (snd (upload Ex.served "/srv/files/docs/" Ex.report Ex.machine))
           = <[f := File (content Ex.report)]> (nodes Ex.machine)
         ∧ nodes (snd (upload Ex.served "/srv/files/docs/" Ex.report Ex.machine)) !! f
           = Some (File (content Ex.report))
         ∧ ∀ k n, nodes Ex.machine !! k = Some n →
                  nodes (snd (upload Ex.served "/srv/files/docs/" Ex.report Ex.machine)) !! k
                  = Some n.
Proof.
  apply (upload_success_frame Ex.served "/srv/files/docs/" Ex.report Ex.machine).
  by vm_compute.
Defined.

(** C6.  When [upload] has created its file and the part's reader then
    fails with [err], after delivering [content part]: [upload] returns
    [err]; without [DontRemoveOnError] the file is removed again and the
    nodes are those before the upload; with it the file stays, holding
    the bytes delivered before the error. *)
Theorem upload_copy_failure cfg path part w res w' evs f err :
  upload cfg path part w = (res, w') →
  added w w' evs → EvCreate f (Ok f) ∈ evs →
  read_err part = Some err →
  res = Returns (Some err)
  ∧ (DontRemoveOnError cfg = false → nodes w' !! f = None ∧ nodes w' = nodes w)
  ∧ (DontRemoveOnError cfg = true →
     nodes w' !! f = Some (File (content part))
     ∧ nodes w' = <[f := File (content part)]> (nodes w)).
Proof.
  intros Hup Hadd Hin Herr.
  destruct (upload_created _ _ _ _ _ _ _ _ _ Hup Hadd Hin) as (stats & Hp & H).
  apply probes_Break in Hp as (Hn & _ & _).
  destruct (faults w SysCreate f); [by destruct H|].
  destruct H as (_ & -> & _ & Hnodes). unfold cleans_up in Hnodes.
  rewrite Herr in Hnodes |- *. cbn [not_nil andb] in Hnodes.
  split; [done|]. split; intros Hk; rewrite Hk in Hnodes; cbn [negb] in Hnodes;
    rewrite Hnodes; (split; [|done]); [done|apply lookup_insert_eq].
Qed.

Lemma upload_copy_failure_witness :
  fst (upload Ex.served "/srv/files/docs/" Ex.broken_report Ex.machine)
  = Returns (Some (ErrorString "unexpected EOF"))
  ∧ (DontRemoveOnError Ex.served = false →
     nodes (snd (upload Ex.served "/srv/files/docs/" Ex.broken_report Ex.machine))
       !! "/srv/files/docs/report.pdf" = None
     ∧ nodes (snd (upload Ex.served "/srv/files/docs/" Ex.broken_report Ex.machine))
       = nodes Ex.machine)
  ∧ (DontRemoveOnError Ex.served = true →
     nodes (snd (upload Ex.served "/srv/files/docs/" Ex.broken_report Ex.machine))
       !! "/srv/files/docs/report.pdf" = Some (File (content Ex.broken_report))
     ∧ nodes (snd (upload Ex.served "/srv/files/docs/" Ex.broken_report Ex.machine))
       = <[ "/srv/files/docs/report.pdf" := File (content Ex.broken_report)]>
           (nodes Ex.machine)).
Proof.
  apply (upload_copy_failure Ex.served "/srv/files/docs/" Ex.broken_report Ex.machine
           (fst (upload Ex.served "/srv/files/docs/" Ex.broken_report Ex.machine))
           (snd (upload Ex.served "/srv/files/docs/" Ex.broken_report Ex.machine))
           [EvRemove "/srv/files/docs/report.pdf";
            EvWrite "/srv/files/docs/report.pdf" Ex.bytes_hello;
            EvCreate "/srv/files/docs/report.pdf" (Ok "/srv/files/docs/report.pdf");
            EvStat "/srv/files/docs/report.pdf"
              (Err (PathError "stat" "/srv/files/docs/report.pdf" ENOENT))]).
  - by destruct (upload _ _ _ _).
  - by vm_compute.
  - in_list.
  - done.
Defined.


Lemma upload_loop_collision fuel ext i file w n :
  nodes w !! file = Some n → faults w SysStat file = None →
  upload_loop (S fuel) ext i file w
  = match slice_to file (Z.of_nat (len file) - Z.of_nat (len ext)) with
    | Some stem =>
        upload_loop fuel ext (wrap64 (i + 1))
          (stem +:+ " (" +:+ Itoa (wrap64 (i + 1)) +:+ ")" +:+ ext)
          (traced w [EvStat file (Ok {| fi_IsDir := is_dir n |})])
    | None =>
        (Some SlicePanic, traced w [EvStat file (Ok {| fi_IsDir := is_dir n |})])
    end.
Proof.
  intros Hn Hf. cbn [upload_loop]. unfold mbind, M_bind. rewrite Stat_run.
  unfold Os.stat_of. rewrite Hf, Hn. by destruct (slice_to _ _).
Qed.

(** C10.  In a run of [upload]: an entry of any kind at the candidate path,
    directory or file, makes the loop go on with the next candidate; a
    call of [os.Create] is made only at a path for which the [os.Stat]
    just before reported that nothing exists, where the world indeed has
    no node; the calls before that are the collisions, and no path where
    [os.Stat] found an entry is ever passed to [os.Create]. *)
Theorem upload_creates_only_where_free cfg path part w res w' evs :
  upload cfg path part w = (res, w') → added w w' evs →
  (∀ fuel ext i file n,
      nodes w !! file = Some n → faults w SysStat file = None →
      ∃ w1, trace w1 = EvStat file (Ok {| fi_IsDir := is_dir n |}) :: trace w
            ∧ upload_loop (S fuel) ext i file w
              = match slice_to file (Z.of_nat (len file) - Z.of_nat (len ext)) with
                | Some stem =>
                    upload_loop fuel ext (wrap64 (i + 1))
                      (stem +:+ " (" +:+ Itoa (wrap64 (i + 1)) +:+ ")" +:+ ext) w1
                | None => (Some SlicePanic, w1)
                end)
  ∧ (∀ f r, EvCreate f r ∈ evs →
      nodes w !! f = None
      ∧ ∃ later rejected,
          evs = later ++ EvCreate f r
                :: EvStat f (Err (PathError "stat" f ENOENT)) :: rejected
          ∧ Forall (collision w) rejected)
  ∧ (∀ c fi r, EvStat c (Ok fi) ∈ evs → EvCreate c r ∈ evs → False).
Proof.
  intros Hup Hadd. split; [|split].
  - intros fuel ext i file n Hn Hf. eexists. split; [|by apply upload_loop_collision].
    done.
  - intros f r Hin.
    destruct (upload_created _ _ _ _ _ _ _ _ _ Hup Hadd Hin) as (stats & Hp & H).
    pose proof (probes_shape _ _ _ _ _ _ Hp) as (ev & rejected & -> & Hrej & _).
    apply probes_Break in Hp as (Hn & _ & evs' & [= -> <-]).
    split; [done|].
    destruct (faults w SysCreate f).
    + destruct H as (_ & _ & -> & _). by exists [], rejected.
    + destruct H as (_ & _ & -> & _).
      exists ((if cleans_up cfg part then [EvRemove f] else []) ++ write_events f part),
        rejected.
      by rewrite <- List.app_assoc.
  - intros c fi r Hs Hin.
    destruct (upload_created _ _ _ _ _ _ _ _ _ Hup Hadd Hin) as (stats & Hp & H).
    pose proof (probes_stats _ _ _ _ _ _ Hp) as Hst.
    apply probes_Break in Hp as (Hn & Hf & _).
    assert (EvStat c (Ok fi) ∈ stats) as Hs'.
    { destruct (faults w SysCreate c).
      - destruct H as (_ & _ & -> & _).
        by apply elem_of_cons in Hs as [?|?].
      - destruct H as (_ & _ & -> & _). unfold write_events in Hs.
        apply elem_of_app in Hs as [Hs|Hs].
        { destruct (cleans_up cfg part);
            apply list_elem_of_In in Hs; cbn in Hs; intuition discriminate. }
        apply elem_of_app in Hs as [Hs|Hs].
        { destruct (content part);
            apply list_elem_of_In in Hs; cbn in Hs; intuition discriminate. }
        by apply elem_of_cons in Hs as [?|?]. }
    rewrite Forall_forall in Hst. destruct (Hst _ Hs') as (c' & r' & [= <- <-] & Hr).
    unfold Os.stat_of in Hr. by rewrite Hf, Hn in Hr.
Qed.

Lemma upload_creates_only_where_free_witness :
  nodes Ex.machine !! "/srv/files/report (1).pdf" = None
  ∧ ∃ later rejected,
      [EvWrite "/srv/files/report (1).pdf" Ex.bytes_hello;
       EvCreate "/srv/files/report (1).pdf" (Ok "/srv/files/report (1).pdf");
       EvStat "/srv/files/report (1).pdf"
         (Err (PathError "stat" "/srv/files/report (1).pdf" ENOENT));
       EvStat "/srv/files/report.pdf" (Ok {| fi_IsDir := false |})]
      = later ++ EvCreate "/srv/files/report (1).pdf" (Ok "/srv/files/report (1).pdf")
        :: EvStat "/srv/files/report (1).pdf"
             (Err (PathError "stat" "/srv/files/report (1).pdf" ENOENT)) :: rejected
      ∧ Forall (collision Ex.machine) rejected.
Proof.
  refine (proj1 (proj2 (upload_creates_only_where_free Ex.served "/srv/files/" Ex.report
           Ex.machine
           (fst (upload Ex.served "/srv/files/" Ex.report Ex.machine))
           (snd (upload Ex.served "/srv/files/" Ex.report Ex.machine))
           _ _ _)) _ _ _).
  - by destruct (upload _ _ _ _).
  - by vm_compute.
  - in_list.
Defined.


(** *** Uploads without a file name *)




















End UploadClaims.

(** ** The handlers *)

Section Handlers.

Import Strings Filepath Strconv.
Implicit Types (cfg : Config) (r : Request) (part : Part).

(** C8.  With [DisableDirectoryListing] set, [handleList] answers 200 with
    the body [[]] for every request, and leaves the world as it was: no
    call on the file system is recorded and no node changes. *)
Theorem handleList_disabled cfg format r world :
  DisableDirectoryListing cfg = true →
  Http.response_status (fst (handleList cfg format Http.fresh r world)) = 200
  ∧ Http.response_body (fst (handleList cfg format Http.fresh r world)) = "[]"
  ∧ snd (handleList cfg format Http.fresh r world) = world
  ∧ added world (snd (handleList cfg format Http.fresh r world)) [].
Proof. intros H. unfold handleList. rewrite H. by repeat split. Qed.

Lemma handleList_disabled_witness :
  Http.response_status
    (fst (handleList Ex.unlisted Ex.format Http.fresh (Ex.get "/anything") Ex.machine)) = 200
  ∧ Http.response_body
      (fst (handleList Ex.unlisted Ex.format Http.fresh (Ex.get "/anything") Ex.machine)) = "[]"
  ∧ snd (handleList Ex.unlisted Ex.format Http.fresh (Ex.get "/anything") Ex.machine)
    = Ex.machine
  ∧ added Ex.machine
      (snd (handleList Ex.unlisted Ex.format Http.fresh (Ex.get "/anything") Ex.machine)) [].
Proof.
  apply (handleList_disabled Ex.unlisted Ex.format (Ex.get "/anything") Ex.machine).
  reflexivity.
Defined.

Lemma list_names_omap fsys paths : list_names fsys paths = paths ++ omap listed fsys.
Proof.
  revert paths. induction fsys as [|f fsys IH]; intros paths.
  - cbn. by rewrite List.app_nil_r.
  - change (omap listed (f :: fsys))
      with (match listed f with
            | Some y => y :: omap listed fsys
            | None => omap listed fsys
            end).
    cbn [list_names]. unfold listed at 1. destruct (HasPrefix (Name f) ".").
    + apply IH.
    + rewrite IH. by rewrite <- List.app_assoc.
Qed.

(** C4, as stated, fails: for the directory [/srv/files/docs], whose
    entries are [.git], [a.txt] and the directory [sub], the body is
    [[a.txt,sub/]], with no quotes around the names; it is not the JSON
    array of the two names in either order. *)
Lemma handleList_body_unquoted :
  fst (Os.ReadDir "/srv/files/docs/" Ex.machine)
  = Ok [ {| Name := ".git"; IsDir := true |}; {| Name := "a.txt"; IsDir := false |};
         {| Name := "sub"; IsDir := true |} ]
  ∧ Http.response_status
      (fst (handleList Ex.served Ex.format Http.fresh (Ex.get "docs") Ex.machine)) = 200
  ∧ Http.response_body
      (fst (handleList Ex.served Ex.format Http.fresh (Ex.get "docs") Ex.machine))
    = "[a.txt,sub/]"
  ∧ String.eqb "[a.txt,sub/]" (json_array ["a.txt"; "sub/"]) = false
  ∧ String.eqb "[a.txt,sub/]" (json_array ["sub/"; "a.txt"]) = false.
Proof. by vm_compute. Qed.

(** C4, amended.  For a directory whose entries are [.git], [a.txt] and
    the directory [sub], in whatever order they are enumerated, the
    answer is 200 with the body [[] followed by the listed names joined by
    commas and []]: the names are [a.txt] and [sub/], the hidden entry is
    left out, and the names are not quoted, so the body is [[a.txt,sub/]]
    or [[sub/,a.txt]]. *)
Theorem handleList_listing cfg format r world path world1 es world2 git_is_dir :
  DisableDirectoryListing cfg = false →
  validatePath (BasePath cfg) (query_path r) world = (Ok path, world1) →
  HasSuffix path "/" = true →
  Os.ReadDir path world1 = (Ok es, world2) →
  es ≡ₚ [ {| Name := ".git"; IsDir := git_is_dir |};
          {| Name := "a.txt"; IsDir := false |};
          {| Name := "sub"; IsDir := true |} ] →
  ∃ names,
    names ≡ₚ ["a.txt"; "sub/"]
    ∧ handleList cfg format Http.fresh r world
      = (Http.Write ("[" +:+ Strings.Join names "," +:+ "]")
           (Http.WriteHeader Http.StatusOK Http.fresh), world2)
    ∧ Http.response_status (fst (handleList cfg format Http.fresh r world)) = 200
    ∧ (Http.response_body (fst (handleList cfg format Http.fresh r world)) = "[a.txt,sub/]"
       ∨ Http.response_body (fst (handleList cfg format Http.fresh r world)) = "[sub/,a.txt]").
Proof.
  intros Hcfg Hv Hsfx Hrd Hes.
  assert (handleList cfg format Http.fresh r world
          = (Http.Write ("[" +:+ Strings.Join (omap listed es) "," +:+ "]")
               (Http.WriteHeader Http.StatusOK Http.fresh), world2)) as Hrun.
  { unfold handleList. rewrite Hcfg. unfold mbind at 1, M_bind at 1.
    rewrite Hv, Hsfx. cbn [negb]. unfold mbind at 1, M_bind at 1. rewrite Hrd.
    by rewrite list_names_omap. }
  exists (omap listed es).
  assert (omap listed es ≡ₚ ["a.txt"; "sub/"]) as Hperm.
  { rewrite Hes. done. }
  split; [done|]. split; [done|]. rewrite Hrun. split; [done|].
  apply Permutation_sym, Permutation_length_2_inv in Hperm as [->| ->]; auto.
Qed.

Lemma handleList_listing_witness :
  ∃ names,
    names ≡ₚ ["a.txt"; "sub/"]
    ∧ handleList Ex.served Ex.format Http.fresh (Ex.get "docs") Ex.machine
      = (Http.Write ("[" +:+ Strings.Join names "," +:+ "]")
           (Http.WriteHeader Http.StatusOK Http.fresh),
         snd (Os.ReadDir "/srv/files/docs/" (snd (validatePath "/srv/files" "docs" Ex.machine))))
    ∧ Http.response_status
        (fst (handleList Ex.served Ex.format Http.fresh (Ex.get "docs") Ex.machine)) = 200
    ∧ (Http.response_body
         (fst (handleList Ex.served Ex.format Http.fresh (Ex.get "docs") Ex.machine))
       = "[a.txt,sub/]"
       ∨ Http.response_body
           (fst (handleList Ex.served Ex.format Http.fresh (Ex.get "docs") Ex.machine))
         = "[sub/,a.txt]").
Proof.
  apply (handleList_listing Ex.served Ex.format (Ex.get "docs") Ex.machine
           "/srv/files/docs/" (snd (validatePath "/srv/files" "docs" Ex.machine))
           [ {| Name := ".git"; IsDir := true |}; {| Name := "a.txt"; IsDir := false |};
             {| Name := "sub"; IsDir := true |} ]
           _ true).
  - reflexivity.
  - by vm_compute.
  - by vm_compute.
  - by vm_compute.
  - reflexivity.
Defined.


Lemma scan_parts_skip cfg path w before rest :
  Forall (λ p, ¬ payload p) before →
  scan_parts cfg path w (before ++ rest) = scan_parts cfg path w rest.
Proof.
  induction 1 as [|p before Hp _ IH]; [done|].
  cbn [app scan_parts]. apply eqb_false in Hp. by rewrite Hp.
Qed.

Lemma scan_parts_payload cfg path w part rest world :
  payload part →
  scan_parts cfg path w (part :: rest) world
  = (upload_answer w (fst (upload cfg path part world)), snd (upload cfg path part world)).
Proof.
  intros Hp. cbn [scan_parts]. apply eqb_true in Hp. rewrite Hp.
  unfold mbind, M_bind. destruct (upload cfg path part world) as [[[err|]| |] world'];
    reflexivity.
Qed.

Lemma upload_answer_known u : ¬ unknown_payload (upload_answer Http.fresh u).
Proof.
  intros (rw & Hrw & Hst & Hb). destruct u as [[err|]| |]; cbn in Hrw; try done.
  - injection Hrw as <-. cbn in Hb. by rewrite !str_app_cons in Hb.
  - injection Hrw as <-. done.
Qed.

Lemma scan_parts_unknown cfg path parts world :
  unknown_payload (fst (scan_parts cfg path Http.fresh parts world))
  ↔ Forall (λ p, ¬ payload p) parts.
Proof.
  induction parts as [|part parts IH].
  - split; [done|]. intros _. by eexists.
  - destruct (decide (payload part)) as [Hp|Hp].
    + rewrite scan_parts_payload by done. cbn [fst]. split.
      * by intros ?%upload_answer_known.
      * intros H. by inversion H.
    + change (part :: parts) with ([part] ++ parts) at 1.
      rewrite (scan_parts_skip cfg path Http.fresh [part] parts) by by constructor.
      rewrite IH. split; [by constructor|]. intros H. by inversion H.
Qed.

(** C7.  The path validates to a directory and the request is a multipart
    form.  If [part] is the first part named [myFile], the handler runs
    [upload] on it, whatever parts come before or after, and answers 200
    with an empty body when [upload] returns nil, and 400 with [upload
    failed: ...] when it returns an error.  The answer is 400 with [unknown
    payload] exactly when no part is named [myFile], be it that the parts
    end with [io.EOF] or with an error. *)
Theorem handleUpload_first_myFile cfg r world path world1 parts ending :
  validatePath (BasePath cfg) (query_path r) world = (Ok path, world1) →
  HasSuffix path "/" = true →
  body r = Multipart parts ending →
  (∀ before part after,
      parts = before ++ part :: after →
      Forall (λ p, FormName p ≠ "myFile") before → FormName part = "myFile" →
      handleUpload cfg Http.fresh r world
      = (upload_answer Http.fresh (fst (upload cfg path part world1)),
         snd (upload cfg path part world1))
      ∧ (fst (upload cfg path part world1) = Returns None →
         ∃ rw, fst (handleUpload cfg Http.fresh r world) = Returns rw
               ∧ Http.response_status rw = 200 ∧ Http.response_body rw = "")
      ∧ (∀ err, fst (upload cfg path part world1) = Returns (Some err) →
         ∃ rw, fst (handleUpload cfg Http.fresh r world) = Returns rw
               ∧ Http.response_status rw = 400
               ∧ Http.response_body rw = "upload failed: " +:+ Error err))
  ∧ ((∃ rw, fst (handleUpload cfg Http.fresh r world) = Returns rw
            ∧ Http.response_status rw = 400
            ∧ Http.response_body rw = "unknown payload")
     ↔ Forall (λ p, FormName p ≠ "myFile") parts).
Proof.
  intros Hv Hsfx Hbody.
  assert (handleUpload cfg Http.fresh r world = scan_parts cfg path Http.fresh parts world1)
    as Hrun.
  { unfold handleUpload. unfold mbind, M_bind. by rewrite Hv, Hsfx, Hbody. }
  rewrite Hrun. split.
  - intros before part after -> Hbefore Hpart.
    rewrite scan_parts_skip by done. rewrite scan_parts_payload by done.
    split; [done|]. cbn [fst]. split.
    + intros ->. by eexists.
    + intros err ->. by eexists.
  - apply scan_parts_unknown.
Qed.

Lemma handleUpload_first_myFile_witness :
  (∀ before part after,
      [Ex.comment; Ex.report; Ex.nameless] = before ++ part :: after →
      Forall (λ p, FormName p ≠ "myFile") before → FormName part = "myFile" →
      handleUpload Ex.served Http.fresh (Ex.post "docs" [Ex.comment; Ex.report; Ex.nameless])
        Ex.machine
      = (upload_answer Http.fresh
           (fst (upload Ex.served "/srv/files/docs/" part
                   (snd (validatePath "/srv/files" "docs" Ex.machine)))),
         snd (upload Ex.served "/srv/files/docs/" part
                (snd (validatePath "/srv/files" "docs" Ex.machine))))
      ∧ (fst (upload Ex.served "/srv/files/docs/" part
                (snd (validatePath "/srv/files" "docs" Ex.machine))) = Returns None →
         ∃ rw, fst (handleUpload Ex.served Http.fresh
                      (Ex.post "docs" [Ex.comment; Ex.report; Ex.nameless]) Ex.machine)
               = Returns rw
               ∧ Http.response_status rw = 200 ∧ Http.response_body rw = "")
      ∧ (∀ err, fst (upload Ex.served "/srv/files/docs/" part
                       (snd (validatePath "/srv/files" "docs" Ex.machine)))
                = Returns (Some err) →
         ∃ rw, fst (handleUpload Ex.served Http.fresh
                      (Ex.post "docs" [Ex.comment; Ex.report; Ex.nameless]) Ex.machine)
               = Returns rw
               ∧ Http.response_status rw = 400
               ∧ Http.response_body rw = "upload failed: " +:+ Error err))
  ∧ ((∃ rw, fst (handleUpload Ex.served Http.fresh
                   (Ex.post "docs" [Ex.comment; Ex.report; Ex.nameless]) Ex.machine)
            = Returns rw
            ∧ Http.response_status rw = 400
            ∧ Http.response_body rw = "unknown payload")
     ↔ Forall (λ p, FormName p ≠ "myFile") [Ex.comment; Ex.report; Ex.nameless]).
Proof.
  apply (handleUpload_first_myFile Ex.served
           (Ex.post "docs" [Ex.comment; Ex.report; Ex.nameless]) Ex.machine
           "/srv/files/docs/" (snd (validatePath "/srv/files" "docs" Ex.machine))
           [Ex.comment; Ex.report; Ex.nameless] None).
  - by vm_compute.
  - by vm_compute.
  - reflexivity.
Defined.

End Handlers.
